(** * BioSync Pro: the sensor ingestion path of [src/App.tsx]

    A shallow embedding of the React component [App]: its state hooks, the
    rolling window kept by [updateData], the notification handler with its
    three regular expressions, the Bluetooth connection procedure and the
    demo-mode random walk, followed by the properties established about
    them. *)

From Stdlib Require Import List ZArith NArith QArith Qround Qminmax Qreduction.
From Stdlib Require Import Qabs Qpower.
From Stdlib Require Import String Ascii Bool Lia Lqa DecimalString.
Import ListNotations.

Set Implicit Arguments.

(* ================================================================== *)
(** * The JavaScript values and built-ins the component relies on     *)
(* ================================================================== *)

Module JS.

(** A JavaScript string is a sequence of UTF-16 code units. *)
Definition jsstring : Type := list N.

(** An ASCII literal as a JavaScript string. *)
Definition str (s : string) : jsstring :=
  map N_of_ascii (list_ascii_of_string s).

(** The [number] values the component handles: [NaN] or a finite value.
    A finite value is kept as a rational in lowest terms.  For what the
    parsers return it is the number written, which is the value of the
    program whenever binary64 holds that number exactly (every integer
    below [2^53]) and its nearest binary64 number otherwise; what the
    generator computes is rounded step by step, see [fl]. *)
Inductive number : Type :=
| NaN
| Num (q : Q).

Definition int (z : Z) : number := Num (inject_Z z).

(** The class [\d]: the ten ASCII digits. *)
Definition isDigit (c : N) : bool := ((48 <=? c) && (c <=? 57))%N.

(** The class [[\d.]]: a digit or a full stop. *)
Definition isDigitOrDot (c : N) : bool := (isDigit c || (c =? 46))%N.

Definition digitValue (c : N) : Z := Z.of_N (c - 48).

(** The integer denoted by a run of digits, most significant first. *)
Definition decimalValue (ds : jsstring) : Z :=
  fold_left (fun acc c => 10 * acc + digitValue c)%Z ds 0%Z.

Fixpoint takeWhile (p : N -> bool) (s : jsstring) : jsstring :=
  match s with
  | c :: s' => if p c then c :: takeWhile p s' else []
  | [] => []
  end.

Fixpoint dropWhile (p : N -> bool) (s : jsstring) : jsstring :=
  match s with
  | c :: s' => if p c then dropWhile p s' else s
  | [] => []
  end.

(** [parseInt(s)] on a string that starts with its digits: the longest
    digit prefix read in base ten, [NaN] when there is none.  The result
    is the integer written: the value of the program for runs of up to 15
    digits, which denote less than [2^53]; the program rounds longer runs.
    (Leading white space, a sign and the [0x] prefix are not modelled: the
    component only passes captures of [\d+].) *)
Definition parseInt (s : jsstring) : number :=
  match takeWhile isDigit s with
  | [] => NaN
  | ds => int (decimalValue ds)
  end.

(** [parseFloat(s)]: the longest prefix that is a decimal literal,
    [digits [. digits]] or [. digits]; [NaN] when no digit is read.
    (Sign and exponent are not modelled: the component only passes
    strings made of digits and full stops.) *)
Definition parseFloat (s : jsstring) : number :=
  let ip := takeWhile isDigit s in
  match dropWhile isDigit s with
  | 46%N :: r =>
      let fp := takeWhile isDigit r in
      match ip ++ fp with
      | [] => NaN
      | ds => Num (Qred (Qmake (decimalValue ds)
                               (Z.to_pos (10 ^ Z.of_nat (List.length fp)))))
      end
  | _ =>
      match ip with
      | [] => NaN
      | ds => int (decimalValue ds)
      end
  end.

(** [stripPrefix p s]: what follows [p] when [s] starts with [p]. *)
Fixpoint stripPrefix (p s : jsstring) : option jsstring :=
  match p, s with
  | [], _ => Some s
  | a :: p', b :: s' => if (a =? b)%N then stripPrefix p' s' else None
  | _ :: _, [] => None
  end.

(** A match of the regular expression [lit(cls+)] anchored at the start of
    [s]: the literal, then the longest non-empty run of the class (the
    quantifier is greedy and nothing follows it).  The result is capture
    group 1. *)
Definition matchHere (lit : jsstring) (cls : N -> bool) (s : jsstring)
  : option jsstring :=
  match stripPrefix lit s with
  | Some r =>
      match takeWhile cls r with
      | [] => None
      | cap => Some cap
      end
  | None => None
  end.

(** [s.match(/lit(cls+)/)]: the match at the leftmost position that has
    one, [None] for [null]. *)
Fixpoint regexCapture (lit : jsstring) (cls : N -> bool) (s : jsstring)
  : option jsstring :=
  match matchHere lit cls s with
  | Some cap => Some cap
  | None =>
      match s with
      | [] => None
      | _ :: s' => regexCapture lit cls s'
      end
  end.

(** White space and line terminators, as [String.prototype.trim] sees
    them. *)
Definition isWhiteSpace (c : N) : bool :=
  existsb (N.eqb c)
    [9; 10; 11; 12; 13; 32; 160; 5760; 8192; 8193; 8194; 8195; 8196; 8197;
     8198; 8199; 8200; 8201; 8202; 8232; 8233; 8239; 8287; 12288; 65279]%N.

Definition trim (s : jsstring) : jsstring :=
  rev (dropWhile isWhiteSpace (rev (dropWhile isWhiteSpace s))).

(** [s.includes(p)]. *)
Fixpoint includes (s p : jsstring) : bool :=
  match stripPrefix p s with
  | Some _ => true
  | None =>
      match s with
      | [] => false
      | _ :: s' => includes s' p
      end
  end.

(** [s.padStart(n, c)] for a one-character filler. *)
Definition padStart (n : nat) (c : N) (s : jsstring) : jsstring :=
  repeat c (n - List.length s) ++ s.

(** [n.toString()] for a natural number. *)
Definition toString (n : nat) : jsstring :=
  str (NilZero.string_of_uint (Nat.to_uint n)).

(** [Math.max] and [Math.min] on finite reals ([Z.max] and [Z.min] where
    both arguments are integers). *)
Definition Math_max (a b : Q) : Q := Qmax a b.
Definition Math_min (a b : Q) : Q := Qmin a b.

(** [Math.floor]. *)
Definition Math_floor (x : Q) : Z := Qfloor x.

(** [a > b] on finite reals. *)
Definition gt (a b : Q) : bool := negb (Qle_bool a b).

(** ** Binary64 arithmetic

    The generator computes with [number]s that are not integers.  A finite
    binary64 number is held as the rational it is; [fl] is the rounding of
    a real result to binary64, to nearest and to even on a tie, as
    [*], [+] and [-] of the language perform it. *)

(** [2^e], for any integer [e]. *)
Definition pow2 (e : Z) : Q := 2 ^ e.

(** The exponent of the last place of [a >= 0]: the least [e] from [-1074]
    (the spacing of the subnormal numbers) to [971] with [a < 2^(e + 53)],
    found by bisection of [lo .. hi]. *)
Fixpoint ulpBetween (fuel : nat) (lo hi : Z) (a : Q) : Z :=
  match fuel with
  | O => hi
  | S fuel' =>
      if (hi <=? lo)%Z then hi
      else
        let mid := ((lo + hi) / 2)%Z in
        if gt (pow2 (mid + 53)) a then ulpBetween fuel' lo mid a
        else ulpBetween fuel' (mid + 1) hi a
  end.

Definition ulpExponent (a : Q) : Z := ulpBetween 12 (-1074) 971 a.

(** The integer nearest to [x], the even one of the two on a tie. *)
Definition roundHalfEven (x : Q) : Z :=
  let n := Qfloor x in
  let rest := x - inject_Z n in
  if gt (1 # 2) rest then n
  else if gt rest (1 # 2) then (n + 1)%Z
  else if Z.even n then n else (n + 1)%Z.

(** The binary64 number nearest to [q]: [q] is rounded to a multiple of
    the last place of its magnitude.  (For [|q|] from [2^1024 - 2^970] on
    the language gives an infinity; the generator stays far below.) *)
Definition fl (q : Q) : Q :=
  let e := ulpExponent (Qabs q) in
  Qred (inject_Z (roundHalfEven (q / pow2 e)) * pow2 e).

(** [q] is a binary64 number. *)
Definition representable (q : Q) : Prop := fl q == q.

(** [x.toFixed(1)] for [x >= 0]: the integer [n] with [n / 10] closest to
    [x], the larger one on a tie, printed with one fractional digit. *)
Definition tenths (x : Q) : Z := Qfloor (10 * x + (1 # 2)).

Definition toFixed1 (x : Q) : jsstring :=
  let n := tenths x in
  toString (Z.to_nat (n / 10)) ++ str "." ++ toString (Z.to_nat (n mod 10)).

(** An exception value: [name] and [message] of an [Error] or
    [DOMException]. *)
Record error : Type := mkError { errName : jsstring; message : jsstring }.

(** [Error.prototype.toString]. *)
Definition errorToString (e : error) : jsstring :=
  match errName e, message e with
  | [], m => m
  | n, [] => n
  | n, m => n ++ str ": " ++ m
  end.

(** [new Date()]: the fields the component reads. *)
Record Date : Type := mkDate {
  getHours : nat;
  getMinutes : nat;
  getSeconds : nat;
  toLocaleTimeString : jsstring
}.

End JS.

Import JS.

(* ================================================================== *)
(** * The component [App]                                              *)
(* ================================================================== *)

Module App.

(** [interface DataPoint]. *)
Record DataPoint : Type := mkDataPoint {
  time : jsstring;
  heartRate : number;
  temperature : number;
  oxygen : number
}.

Definition MAX_DATA_POINTS : nat := 60.

(** The part of a [BluetoothDevice] the component reads. *)
Record BluetoothDevice : Type := mkDevice { name : jsstring }.

(** The values of the nine [useState] hooks in one render. *)
Record State : Type := mkState {
  isConnected : bool;
  isDemoMode : bool;
  device : option BluetoothDevice;
  data : list DataPoint;
  currentHR : number;
  currentTemp : number;
  currentSpO2 : number;
  logs : list jsstring;
  errorMsg : option jsstring
}.

(** The arguments of the [useState] calls. *)
Definition initialState : State :=
  mkState false false None [] (int 0) (int 0) (int 0) [] None.

(** ** The state setters *)

Definition setIsConnected (b : bool) (s : State) : State :=
  mkState b (isDemoMode s) (device s) (data s)
          (currentHR s) (currentTemp s) (currentSpO2 s) (logs s) (errorMsg s).

Definition setIsDemoMode (b : bool) (s : State) : State :=
  mkState (isConnected s) b (device s) (data s)
          (currentHR s) (currentTemp s) (currentSpO2 s) (logs s) (errorMsg s).

Definition setDevice (d : option BluetoothDevice) (s : State) : State :=
  mkState (isConnected s) (isDemoMode s) d (data s)
          (currentHR s) (currentTemp s) (currentSpO2 s) (logs s) (errorMsg s).

(** [setData(prev => f(prev))]. *)
Definition setData (f : list DataPoint -> list DataPoint) (s : State) : State :=
  mkState (isConnected s) (isDemoMode s) (device s) (f (data s))
          (currentHR s) (currentTemp s) (currentSpO2 s) (logs s) (errorMsg s).

Definition setCurrentHR (x : number) (s : State) : State :=
  mkState (isConnected s) (isDemoMode s) (device s) (data s)
          x (currentTemp s) (currentSpO2 s) (logs s) (errorMsg s).

Definition setCurrentTemp (x : number) (s : State) : State :=
  mkState (isConnected s) (isDemoMode s) (device s) (data s)
          (currentHR s) x (currentSpO2 s) (logs s) (errorMsg s).

Definition setCurrentSpO2 (x : number) (s : State) : State :=
  mkState (isConnected s) (isDemoMode s) (device s) (data s)
          (currentHR s) (currentTemp s) x (logs s) (errorMsg s).

(** [setLogs(prev => f(prev))]. *)
Definition setLogs (f : list jsstring -> list jsstring) (s : State) : State :=
  mkState (isConnected s) (isDemoMode s) (device s) (data s)
          (currentHR s) (currentTemp s) (currentSpO2 s) (f (logs s)) (errorMsg s).

Definition setErrorMsg (m : option jsstring) (s : State) : State :=
  mkState (isConnected s) (isDemoMode s) (device s) (data s)
          (currentHR s) (currentTemp s) (currentSpO2 s) (logs s) m.

(** ** Helpers *)

(** [addLog]: the new line goes first, the four newest older lines are
    kept. *)
Definition logLine (now : Date) (msg : jsstring) : jsstring :=
  str "[" ++ toLocaleTimeString now ++ str "] " ++ msg.

Definition addLog (now : Date) (msg : jsstring) : State -> State :=
  setLogs (fun prev => logLine now msg :: firstn 4 prev).

Definition formatTime (date : Date) : jsstring :=
  padStart 2 48%N (toString (getHours date)) ++ str ":" ++
  padStart 2 48%N (toString (getMinutes date)) ++ str ":" ++
  padStart 2 48%N (toString (getSeconds date)).

(** [newData.slice(newData.length - MAX_DATA_POINTS)] when the array is
    longer than [MAX_DATA_POINTS], the array itself otherwise. *)
Definition evict (newData : list DataPoint) : list DataPoint :=
  if (MAX_DATA_POINTS <? List.length newData)%nat
  then skipn (List.length newData - MAX_DATA_POINTS) newData
  else newData.

Definition updateData (now : Date) (hr temp spo2 : number) (s : State) : State :=
  let s := setCurrentHR hr s in
  let s := setCurrentTemp temp s in
  let s := setCurrentSpO2 spo2 s in
  setData (fun prevData =>
    evict (prevData ++ [mkDataPoint (formatTime now) hr temp spo2])) s.

(** ** The notification handler *)

(** The three patterns [/H:(\d+)/], [/T:([\d.]+)/] and [/O:(\d+)/]. *)
Definition hrPattern (text : jsstring) : option jsstring :=
  regexCapture (str "H:") isDigit text.
Definition tempPattern (text : jsstring) : option jsstring :=
  regexCapture (str "T:") isDigitOrDot text.
Definition spo2Pattern (text : jsstring) : option jsstring :=
  regexCapture (str "O:") isDigit text.

(** [handleCharacteristicValueChanged].  The function is a closure of the
    render that created it: [render] holds the hook values it reads as
    [currentHR], [currentTemp] and [currentSpO2].  [decoded] is the result
    of [decoder.decode(value)]; the state updates go through the setters
    and so act on the live state [s].  Nothing in the [try] block throws,
    so its [catch] block is left out. *)
Definition handleCharacteristicValueChanged
    (render : State) (now : Date) (decoded : jsstring) (s : State) : State :=
  let text := trim decoded in
  let hr := currentHR render in
  let temp := currentTemp render in
  let spo2 := currentSpO2 render in
  let updated := false in
  let hrMatch := hrPattern text in
  let '(hr, updated) :=
    match hrMatch with
    | Some g => (parseInt g, true)
    | None => (hr, updated)
    end in
  let tempMatch := tempPattern text in
  let '(temp, updated) :=
    match tempMatch with
    | Some g => (parseFloat g, true)
    | None => (temp, updated)
    end in
  let spo2Match := spo2Pattern text in
  let '(spo2, updated) :=
    match spo2Match with
    | Some g => (parseInt g, true)
    | None => (spo2, updated)
    end in
  if updated then updateData now hr temp spo2 s else s.

(** ** The demo-mode generator *)

(** The mutable locals of the effect, shared with the interval callback.
    Heart rate and oxygen only ever hold integers; the temperature is a
    binary64 number, held as the rational it is. *)
Record Mock : Type := mkMock { mockHR : Z; mockTemp : Q; mockSpO2 : Z }.

Definition initialMock : Mock := mkMock 75 (365 # 10) 98.

(** The results of the calls of [Math.random()] in one run of the
    callback, in program order.  The last one is only consumed when the
    third exceeds 0.7. *)
Record Draws : Type := mkDraws {
  rndHR : Q;
  rndTemp : Q;
  rndGate : Q;
  rndDir : Q
}.

(** What [Math.random()] may return: a binary64 number from 0 up to, not
    including, 1. *)
Definition unit_interval (r : Q) : Prop := 0 <= r /\ r < 1.

Definition draw (r : Q) : Prop := representable r /\ unit_interval r.

Definition validDraws (d : Draws) : Prop :=
  draw (rndHR d) /\ draw (rndTemp d) /\ draw (rndGate d) /\ draw (rndDir d).

(** The decimal literals [0.2], [0.1], [37.3] and [0.7] of the callback:
    each stands for the binary64 number nearest to it.  ([5], [2], [36.0],
    [0.5] and the integer bounds are binary64 numbers as written.) *)
Definition lit_0_2 : Q := Eval vm_compute in fl (2 # 10).
Definition lit_0_1 : Q := Eval vm_compute in fl (1 # 10).
Definition lit_37_3 : Q := Eval vm_compute in fl (373 # 10).
Definition lit_0_7 : Q := Eval vm_compute in fl (7 # 10).

(** The body of the interval callback up to the call of [updateData]: the
    new values of the locals.  Every product, sum and difference of
    non-integers is rounded; the integer arithmetic is exact. *)
Definition walk (m : Mock) (d : Draws) : Mock :=
  let changeHR := (Math_floor (fl (rndHR d * 5)) - 2)%Z in
  let mockHR' := Z.max 60 (Z.min 110 (mockHR m + changeHR)) in
  let changeTemp := fl (fl (rndTemp d * lit_0_2) - lit_0_1) in
  let mockTemp' :=
    Math_max 36 (Math_min lit_37_3 (fl (mockTemp m + changeTemp))) in
  let mockSpO2' :=
    if gt (rndGate d) lit_0_7 then
      let changeSpO2 := if gt (rndDir d) (5 # 10) then 1%Z else (-1)%Z in
      Z.max 95 (Z.min 100 (mockSpO2 m + changeSpO2))
    else mockSpO2 m in
  mkMock mockHR' mockTemp' mockSpO2'.

Definition finalTemp (m : Mock) : number := parseFloat (toFixed1 (mockTemp m)).

(** The interval callback: the locals move, then the sample is pushed. *)
Definition tick (now : Date) (m : Mock) (d : Draws) (s : State) : Mock * State :=
  let m' := walk m d in
  (m', updateData now (int (mockHR m')) (finalTemp m') (int (mockSpO2 m')) s).

(** The samples the generator hands to [updateData] along a sequence of
    draws. *)
Fixpoint emitted (m : Mock) (ds : list Draws) : list (number * number * number) :=
  match ds with
  | [] => []
  | d :: ds' =>
      let m' := walk m d in
      (int (mockHR m'), finalTemp m', int (mockSpO2 m')) :: emitted m' ds'
  end.

(** The locals after a sequence of draws. *)
Definition walks (m : Mock) (ds : list Draws) : Mock := fold_left walk ds m.

(** ** The page and its environment *)

(** The component together with what lives outside the hooks: the
    listener subscribed to the characteristic of the connected device (a
    closure of [handleCharacteristicValueChanged]) and the locals of the
    running interval. *)
Record World : Type := mkWorld {
  ui : State;
  listener : option (Date -> jsstring -> State -> State);
  timer : option Mock
}.

Definition initialWorld : World := mkWorld initialState None None.

Definition onUi (f : State -> State) (w : World) : World :=
  mkWorld (f (ui w)) (listener w) (timer w).

Definition setListener (l : option (Date -> jsstring -> State -> State))
    (w : World) : World :=
  mkWorld (ui w) l (timer w).

Definition setTimer (t : option Mock) (w : World) : World :=
  mkWorld (ui w) (listener w) t.

(** ** Asynchronous procedures

    A computation over the page that either returns or throws; what it did
    before throwing stays done. *)
Definition Async (A : Type) : Type := World -> (error + A) * World.

Definition ret {A} (a : A) : Async A := fun w => (inr a, w).

Definition bind {A B} (c : Async A) (k : A -> Async B) : Async B :=
  fun w =>
    match c w with
    | (inr a, w') => k a w'
    | (inl e, w') => (inl e, w')
    end.

Definition throw {A} (e : error) : Async A := fun w => (inl e, w).

Definition tryCatch (c : Async unit) (h : error -> Async unit) : Async unit :=
  fun w =>
    match c w with
    | (inr a, w') => (inr a, w')
    | (inl e, w') => h e w'
    end.

(** A call of a state setter. *)
Definition set (f : State -> State) : Async unit := fun w => (inr tt, onUi f w).

(** [await p] for a promise of the browser that settles as [r]. *)
Definition await {A} (r : error + A) : Async A := fun w => (r, w).

(** The two [addEventListener] calls: [h] on the characteristic, and
    [onDisconnected] on the device.  The latter reads nothing from its
    render; [dispatch] runs it when the link goes down. *)
Definition subscribe (h : Date -> jsstring -> State -> State) : Async unit :=
  fun w => (inr tt, setListener (Some h) w).

Definition when (b : bool) (c : Async unit) : Async unit :=
  if b then c else ret tt.

Declare Scope async_scope.
Delimit Scope async_scope with async.
Notation "x <- c ;; k" := (bind c (fun x => k))
  (at level 61, c at next level, right associativity) : async_scope.
Notation "c ;; k" := (bind c (fun _ => k))
  (at level 61, right associativity) : async_scope.

(** How the browser answers one connection attempt. *)
Record Bluetooth : Type := mkBluetooth {
  available : bool;
  requestDevice : error + BluetoothDevice;
  gattConnect : error + unit;
  getPrimaryService : error + unit;
  getCharacteristic : error + unit;
  startNotifications : error + unit
}.

(** The message literals of the source, as code units. *)
Definition msgSearching : jsstring :=          (* 搜索设备... *)
  [25628; 32034; 35774; 22791; 46; 46; 46]%N.
Definition msgDevice : jsstring :=             (* 设备:  *)
  [35774; 22791; 58; 32]%N.
Definition msgConnected : jsstring :=          (* 已连接 *)
  [24050; 36830; 25509]%N.
Definition msgListening : jsstring :=          (* 监听数据... *)
  [30417; 21548; 25968; 25454; 46; 46; 46]%N.
Definition msgDisconnected : jsstring :=       (* 已断开 *)
  [24050; 26029; 24320]%N.
Definition msgDemo : jsstring :=               (* 平滑演示数据生成中... *)
  [24179; 28369; 28436; 31034; 25968; 25454; 29983; 25104; 20013; 46; 46; 46]%N.
Definition msgUnsupported : jsstring :=        (* 不支持 Web Bluetooth API *)
  [19981; 25903; 25345]%N ++ str " Web Bluetooth API".
Definition msgPermission : jsstring :=
  (* 权限错误: 请在本地 localhost 或 HTTPS 环境运行。 *)
  [26435; 38480; 38169; 35823; 58; 32; 35831; 22312; 26412; 22320]%N
    ++ str " localhost " ++ [25110]%N ++ str " HTTPS "
    ++ [29615; 22659; 36816; 34892; 12290]%N.
Definition msgFailed : jsstring :=             (* 连接失败:  *)
  [36830; 25509; 22833; 36133; 58; 32]%N.

(** The [try] block of [connectBluetooth], as created by the render
    [render]: the handler it subscribes is the one of that render, and no
    later render replaces it.  [clock i] is the time read by the [i]-th
    call of [addLog]. *)
Definition attempt (render : State) (bt : Bluetooth)
    (clock : nat -> Date) : Async unit :=
  (when (negb (available bt))
        (throw (mkError (str "Error") msgUnsupported)) ;;
   set (addLog (clock 0%nat) msgSearching) ;;
   device <- await (requestDevice bt) ;;
   set (addLog (clock 1%nat) (msgDevice ++ name device)) ;;
   set (setDevice (Some device)) ;;
   await (gattConnect bt) ;;
   set (addLog (clock 2%nat) msgConnected) ;;
   await (getPrimaryService bt) ;;
   await (getCharacteristic bt) ;;
   await (startNotifications bt) ;;
   set (addLog (clock 3%nat) msgListening) ;;
   subscribe (handleCharacteristicValueChanged render) ;;
   set (setIsConnected true) ;;
   set (setIsDemoMode false))%async.

(** The [catch] block. *)
Definition report (e : error) : Async unit :=
  if includes (errorToString e) (str "permissions policy")
  then set (setErrorMsg (Some msgPermission))
  else set (setErrorMsg (Some (msgFailed ++ message e))).

(** [connectBluetooth]. *)
Definition connectBluetooth (render : State) (bt : Bluetooth)
    (clock : nat -> Date) : Async unit :=
  (set (setErrorMsg None) ;;
   tryCatch (attempt render bt clock) report)%async.

(** The attempt fails with [e]: its [try] block throws [e]. *)
Definition fails (render : State) (bt : Bluetooth) (clock : nat -> Date)
    (w : World) (e : error) : Prop :=
  fst (attempt render bt clock (onUi (setErrorMsg None) w)) = inl e.

(** [onDisconnected]. *)
Definition onDisconnected (now : Date) (s : State) : State :=
  let s := addLog now msgDisconnected s in
  let s := setIsConnected false s in
  setDevice None s.

(** The [useEffect] on [isDemoMode]: when the flag differs from the one of
    the previous render the clean-up clears the interval, and the effect
    starts a new one with fresh locals when the flag is set. *)
Definition demoEffect (now : Date) (before : bool) (w : World) : World :=
  if Bool.eqb before (isDemoMode (ui w)) then w
  else if isDemoMode (ui w)
       then setTimer (Some initialMock) (onUi (addLog now msgDemo) w)
       else setTimer None w.

(** The event [gattserverdisconnected] of a device whose link is up: the
    listener [onDisconnected] runs, and the characteristic falls silent.
    The link is up exactly while [listener] is set, and [onDisconnected]
    runs once: the page connects to a device once before its link goes
    down.  (What any number of runs of [onDisconnected] leaves behind is
    the subject of [onDisconnected_effects].) *)
Definition linkDown (now : Date) (w : World) : World :=
  match listener w with
  | Some _ => setListener None (onUi (onDisconnected now) w)
  | None => w
  end.

(** [disconnectBluetooth], as created by the render [render]:
    [device.gatt.disconnect()] raises [gattserverdisconnected].  Of the
    guard, [device] is read from the render; [device.gatt?.connected] is
    the state of the link, which [linkDown] reads off [listener]. *)
Definition disconnectBluetooth (render : State) (now : Date) (w : World)
  : World :=
  match device render with
  | Some _ => linkDown now w
  | None => w
  end.

(** What can happen to the page. *)
Inductive Event : Type :=
| ClickConnect (bt : Bluetooth) (clock : nat -> Date)
| ClickDisconnect (now : Date)
| LinkLost (now : Date)
| ClickDemo (now : Date)
| Notification (now : Date) (decoded : jsstring)
| Interval (now : Date) (d : Draws).

(** One event, then the effects of the render it causes.  The connect
    button is shown while [isConnected] is false and disabled in demo
    mode, the disconnect button is shown while [isConnected] is true, the
    demo button is always enabled; a disconnected device sends no
    notification. *)
Definition dispatch (w : World) (ev : Event) : World :=
  let render := ui w in
  match ev with
  | ClickConnect bt clock =>
      if isConnected render || isDemoMode render then w
      else demoEffect (clock 4%nat) (isDemoMode render)
             (snd (connectBluetooth render bt clock w))
  | ClickDisconnect now =>
      if isConnected render then disconnectBluetooth render now w else w
  | LinkLost now => linkDown now w
  | ClickDemo now =>
      demoEffect now (isDemoMode render)
        (onUi (setIsDemoMode (negb (isDemoMode render))) w)
  | Notification now decoded =>
      match listener w with
      | Some handler => onUi (handler now decoded) w
      | None => w
      end
  | Interval now d =>
      match timer w with
      | Some m =>
          let '(m', s') := tick now m d (ui w) in
          mkWorld s' (listener w) (Some m')
      | None => w
      end
  end.

Definition run (w : World) (evs : list Event) : World :=
  fold_left dispatch evs w.

(** The pages an execution can be in. *)
Definition reachable (w : World) : Prop :=
  exists evs, w = run initialWorld evs.

End App.

Import App.

(* ================================================================== *)
(** * Vocabulary of the properties                                     *)
(* ================================================================== *)

(** ** The window *)

(** One call of [updateData]: when it happens and what it is given. *)
Record Reading : Type := mkReading {
  at_ : Date;
  hrOf : number;
  tempOf : number;
  spo2Of : number
}.

(** The sample [updateData] builds from a reading. *)
Definition sampleOf (r : Reading) : DataPoint :=
  mkDataPoint (formatTime (at_ r)) (hrOf r) (tempOf r) (spo2Of r).

Definition append (s : State) (r : Reading) : State :=
  updateData (at_ r) (hrOf r) (tempOf r) (spo2Of r) s.

Definition appendAll (s : State) (rs : list Reading) : State :=
  fold_left append rs s.

(** The newest [MAX_DATA_POINTS] elements of a list. *)
Definition keep (l : list DataPoint) : list DataPoint :=
  skipn (List.length l - MAX_DATA_POINTS) l.

(** The newest sample of a window, if any. *)
Definition newest (window : list DataPoint) : option DataPoint :=
  nth_error window (List.length window - 1).

(** The three displays show the newest sample of the window. *)
Definition displaysNewest (s : State) : Prop :=
  exists p, newest (data s) = Some p /\
            currentHR s = heartRate p /\
            currentTemp s = temperature p /\
            currentSpO2 s = oxygen p.

(** ** Occurrences of a field pattern in a text *)

(** The pattern [lit(cls+)] occurs in [text] at offset [i] with capture
    [cap]: the literal stands there, followed by the non-empty run [cap] of
    the class, which cannot be extended. *)
Definition occursAt (lit : jsstring) (cls : N -> bool) (text : jsstring)
    (i : nat) (cap : jsstring) : Prop :=
  exists rest,
    skipn i text = lit ++ cap ++ rest /\
    cap <> [] /\
    forallb cls cap = true /\
    match rest with
    | [] => True
    | c :: _ => cls c = false
    end.

(** The occurrence at [i] is the leftmost one. *)
Definition firstOccurrence (lit : jsstring) (cls : N -> bool)
    (text : jsstring) (i : nat) (cap : jsstring) : Prop :=
  occursAt lit cls text i cap /\
  forall j cap', (j < i)%nat -> ~ occursAt lit cls text j cap'.

(** No character of [s] is white space. *)
Definition solid (s : jsstring) : Prop :=
  forallb (fun c => negb (isWhiteSpace c)) s = true.

(** The shape [<digits>[.<digits>]]. *)
Definition isDecimalShape (s : jsstring) : bool :=
  match takeWhile isDigit s, dropWhile isDigit s with
  | [], _ => false
  | _ :: _, [] => true
  | _ :: _, c :: r =>
      (c =? 46)%N && negb (match r with [] => true | _ => false end)
        && forallb isDigit r
  end.

(** The values of the samples of a window, without the time stamps. *)
Definition readings (window : list DataPoint) : list (number * number * number) :=
  map (fun p => (heartRate p, temperature p, oxygen p)) window.

(** ** The demo generator *)

(** The locals of the generator are within the ranges of the walk. *)
Definition inRange (m : Mock) : Prop :=
  (60 <= mockHR m <= 110)%Z /\
  (36 <= mockTemp m /\ mockTemp m <= 373 # 10) /\
  (95 <= mockSpO2 m <= 100)%Z.

(** A text of the form [dd.d]: two digits, a full stop, one digit. *)
Definition oneFractionalDigit (s : jsstring) : Prop :=
  exists a b c,
    s = [a; b; 46%N; c] /\
    isDigit a = true /\ isDigit b = true /\ isDigit c = true.

(** Draws that push every value up, and draws that push every value
    down: seven eighths and zero are binary64 numbers. *)
Definition upward : Draws := mkDraws (7 # 8) (7 # 8) (7 # 8) (7 # 8).
Definition downward : Draws := mkDraws 0 0 (7 # 8) 0.

(** The oxygen step as the walk is described: one up or one down when the
    gating draw exceeds 0.7, none otherwise. *)
Definition oxygenStepsByOne (m : Mock) (d : Draws) : Prop :=
  if gt (rndGate d) lit_0_7
  then mockSpO2 (walk m d) = (mockSpO2 m + 1)%Z \/
       mockSpO2 (walk m d) = (mockSpO2 m - 1)%Z
  else mockSpO2 (walk m d) = mockSpO2 m.

(** A number with exactly one fractional digit: a number of tenths that
    is not a whole number. *)
Definition hasOneFractionalDigit (x : number) : Prop :=
  exists n : Z, x = Num (Qred (n # 10)) /\ (n mod 10 <> 0)%Z.

(** ** What holds of every page *)

(** The window is within capacity; the displays show its newest sample once
    it has one; the subscribed listener is a closure of the handler; the
    locals of a running interval are within the ranges of the walk. *)
Definition invariant (w : World) : Prop :=
  (List.length (data (ui w)) <= MAX_DATA_POINTS)%nat /\
  (data (ui w) = [] \/ displaysNewest (ui w)) /\
  (forall h, listener w = Some h ->
     exists render, h = handleCharacteristicValueChanged render) /\
  (forall m, timer w = Some m -> inRange m).

(** Two states with the same window and the same displays. *)
Definition sameReadout (s s' : State) : Prop :=
  data s' = data s /\ currentHR s' = currentHR s /\
  currentTemp s' = currentTemp s /\ currentSpO2 s' = currentSpO2 s.

(** The listener [onDisconnected] run at each of the dates in turn. *)
Definition disconnections (nows : list Date) (s : State) : State :=
  fold_left (fun st now => onDisconnected now st) nows s.

(** ** Connection attempts *)

(** The text the [catch] block shows for [e]. *)
Definition errorText (e : error) : jsstring :=
  if includes (errorToString e) (str "permissions policy")
  then msgPermission
  else msgFailed ++ message e.

(** The log after the lines [new] (oldest first) were added to [old]. *)
Definition logged (new : list (Date * jsstring)) (old : list jsstring)
  : list jsstring :=
  fold_left (fun l e => logLine (fst e) (snd e) :: firstn 4 l) new old.

(** The lines a failing attempt has logged by the time it fails, oldest
    first. *)
Definition progress (bt : Bluetooth) (clock : nat -> Date)
  : list (Date * jsstring) :=
  if available bt then
    (clock 0%nat, msgSearching) ::
    match requestDevice bt with
    | inl _ => []
    | inr d =>
        (clock 1%nat, msgDevice ++ name d) ::
        match gattConnect bt with
        | inl _ => []
        | inr _ => [(clock 2%nat, msgConnected)]
        end
    end
  else [].

(** The device a failing attempt leaves in the state: the one the user
    picked, if the attempt got that far. *)
Definition selected (bt : Bluetooth) (before : option BluetoothDevice)
  : option BluetoothDevice :=
  if available bt then
    match requestDevice bt with
    | inl _ => before
    | inr d => Some d
    end
  else before.

(** A failing attempt shows its error and puts everything else back. *)
Definition restoresOnFailure (render : State) (bt : Bluetooth)
    (clock : nat -> Date) (w : World) : Prop :=
  forall e, fails render bt clock w e ->
    let w' := snd (connectBluetooth render bt clock w) in
    errorMsg (ui w') = Some (errorText e) /\
    device (ui w') = device (ui w) /\
    logs (ui w') = logs (ui w) /\
    isConnected (ui w') = isConnected (ui w) /\
    isDemoMode (ui w') = isDemoMode (ui w) /\
    data (ui w') = data (ui w).

(** Dates for the examples: [n] seconds after noon. *)
Definition afterNoon (n : nat) : Date :=
  mkDate 12 (n / 60) (n mod 60)
         (str "12:" ++ padStart 2 48%N (toString (n / 60)) ++ str ":"
                    ++ padStart 2 48%N (toString (n mod 60))).
Definition noon : Date := afterNoon 0.

(** Sixty-one readings, one per second from noon, of heart rates
    60 .. 120. *)
Definition sixtyOne : list Reading :=
  map (fun n => mkReading (afterNoon n) (int (Z.of_nat (60 + n)))
                          (Num (365 # 10)) (int 98)) (seq 0 61).

(** A browser that pairs with a device called [BT05] without error. *)
Definition pairing : Bluetooth :=
  mkBluetooth true (inr (mkDevice (str "BT05")))
              (inr tt) (inr tt) (inr tt) (inr tt).

(** A browser in which the user picks [BT05] and the GATT connection is
    then refused. *)
Definition refused : Bluetooth :=
  mkBluetooth true (inr (mkDevice (str "BT05")))
              (inl (mkError (str "NetworkError") (str "Connection failed")))
              (inr tt) (inr tt) (inr tt).

(** ** Further vocabulary: clocks, texts, pages *)

(** A date as the clock gives it: hours below 24, minutes and seconds
    below 60. *)
Definition validClock (d : Date) : Prop :=
  (getHours d < 24)%nat /\ (getMinutes d < 60)%nat /\ (getSeconds d < 60)%nat.

(** The number written by two digits. *)
Definition readTwo (a b : N) : option nat :=
  if isDigit a && isDigit b
  then Some (N.to_nat ((a - 48) * 10 + (b - 48)))
  else None.

(** Reading a label [hh:mm:ss] back. *)
Definition readTime (s : jsstring) : option (nat * nat * nat) :=
  match s with
  | [a; b; 58%N; c; d; 58%N; e; f] =>
      match readTwo a b, readTwo c d, readTwo e f with
      | Some h, Some m, Some x => Some (h, m, x)
      | _, _, _ => None
      end
  | _ => None
  end.

(** A text of white space only. *)
Definition blank (s : jsstring) : Prop := forallb isWhiteSpace s = true.

(** A non-empty run of digits; a non-empty run of digits and full stops. *)
Definition digitRun (s : jsstring) : Prop :=
  s <> [] /\ forallb isDigit s = true.
Definition digitOrStopRun (s : jsstring) : Prop :=
  s <> [] /\ forallb isDigitOrDot s = true.

(** A character that is no digit, no full stop and none of the tag letters
    [H], [T], [O]; a text of such characters. *)
Definition isNeutral (c : N) : bool :=
  negb (isDigitOrDot c) && negb (c =? 72)%N && negb (c =? 84)%N
    && negb (c =? 79)%N.
Definition neutral (s : jsstring) : Prop := forallb isNeutral s = true.

(** [p] is a substring of [s]. *)
Definition contains (s p : jsstring) : Prop :=
  exists pre post, s = pre ++ p ++ post.

(** The text holds the tag letter [tag], a colon and a character of the
    class, one after the other. *)
Definition hasField (tag : N) (cls : N -> bool) (s : jsstring) : Prop :=
  exists pre c post, s = pre ++ [tag; 58%N; c] ++ post /\ cls c = true.

(** A browser in which every step of pairing with [d] goes through. *)
Definition established (d : BluetoothDevice) : Bluetooth :=
  mkBluetooth true (inr d) (inr tt) (inr tt) (inr tt) (inr tt).

(** The error of a frame whose permissions policy blocks Bluetooth, and a
    browser that answers the device request with it. *)
Definition policyError : error :=
  mkError (str "SecurityError")
          (str "Access to the feature is disallowed by permissions policy.").
Definition blocked : Bluetooth :=
  mkBluetooth true (inl policyError) (inr tt) (inr tt) (inr tt) (inr tt).

(** What holds of every page besides [invariant]: the log has at most five
    lines; the interval runs exactly in demo mode; a listener is subscribed
    exactly while the page says it is connected, and then a device is held;
    the displays are 0 until the first sample. *)
Definition housekeeping (w : World) : Prop :=
  (List.length (logs (ui w)) <= 5)%nat /\
  isDemoMode (ui w) = match timer w with Some _ => true | None => false end /\
  isConnected (ui w) =
    match listener w with Some _ => true | None => false end /\
  (isConnected (ui w) = true -> device (ui w) <> None) /\
  (data (ui w) = [] ->
   currentHR (ui w) = int 0 /\ currentTemp (ui w) = int 0 /\
   currentSpO2 (ui w) = int 0).

(** ** Proof steps for connection attempts *)

(** The cases of a connection attempt: the browser has no Bluetooth, or one
    of the five promises is rejected, or all are fulfilled. *)
Ltac attempt_cases bt :=
  let av := fresh "av" in
  let rd := fresh "rd" in
  let gc := fresh "gc" in
  let gs := fresh "gs" in
  let gch := fresh "gch" in
  let sn := fresh "sn" in
  destruct bt as [av rd gc gs gch sn];
  destruct av;
  [destruct rd as [? | ?];
   [| destruct gc as [? | []];
      [| destruct gs as [? | []];
         [| destruct gch as [? | []];
            [| destruct sn as [? | []]]]]] |].

(** The test of the [catch] block, decided either way. *)
Ltac catch_cases :=
  unfold report; cbn;
  try match goal with
      | |- context [includes ?a ?b] => destruct (includes a b)
      end; cbn.

(* ================================================================== *)
(** * The built-ins on small inputs                                    *)
(* ================================================================== *)

Example parseInt_leading_zero : parseInt (str "082") = int 82.
Proof. reflexivity. Qed.

Example parseFloat_decimal : parseFloat (str "36.9") = Num (369 # 10).
Proof. reflexivity. Qed.

Example parseFloat_trailing_zero : parseFloat (str "37.0") = int 37.
Proof. reflexivity. Qed.

Example parseFloat_second_stop : parseFloat (str "1.2.3") = Num (6 # 5).
Proof. reflexivity. Qed.

Example parseFloat_bare_stop : parseFloat (str ".") = NaN.
Proof. reflexivity. Qed.

Example match_skips_false_start :
  hrPattern (str "xH:a H:70,H:200") = Some (str "70").
Proof. reflexivity. Qed.

Example match_is_greedy : tempPattern (str "T:36.55;") = Some (str "36.55").
Proof. reflexivity. Qed.

Example trim_both_ends :
  trim ([32; 9]%N ++ str "H:1 O:2" ++ [13; 10]%N) = str "H:1 O:2".
Proof. reflexivity. Qed.

Example formatTime_pads :
  formatTime (mkDate 9 5 7 (str "9:05:07 AM")) = str "09:05:07".
Proof. reflexivity. Qed.

Example toFixed1_tie_up : toFixed1 (3645 # 100) = str "36.5".
Proof. reflexivity. Qed.

Example toFixed1_whole : toFixed1 36 = str "36.0".
Proof. reflexivity. Qed.

Example addLog_keeps_five :
  List.length (logs (fold_left (fun s n => addLog (afterNoon n) msgConnected s)
                               (seq 0 7) initialState)) = 5%nat.
Proof. reflexivity. Qed.

(* ================================================================== *)
(** * The rolling window                                               *)
(* ================================================================== *)

Section Window.

Lemma evict_keep : forall l, evict l = keep l.
Proof.
  intros l. unfold evict, keep.
  destruct (Nat.ltb_spec MAX_DATA_POINTS (List.length l)) as [Hlt | Hle].
  - reflexivity.
  - replace (List.length l - MAX_DATA_POINTS)%nat with 0%nat by lia.
    reflexivity.
Qed.

Lemma keep_length : forall l,
  List.length (keep l) = Nat.min (List.length l) MAX_DATA_POINTS.
Proof. intros l. unfold keep. rewrite length_skipn. lia. Qed.

Lemma keep_short : forall l,
  (List.length l <= MAX_DATA_POINTS)%nat -> keep l = l.
Proof.
  intros l H. unfold keep.
  replace (List.length l - MAX_DATA_POINTS)%nat with 0%nat by lia.
  reflexivity.
Qed.

Lemma keep_app : forall a b, keep (keep a ++ b) = keep (a ++ b).
Proof.
  intros a b. unfold keep at 1 3.
  rewrite !length_app, keep_length.
  unfold keep.
  set (k := (List.length a - MAX_DATA_POINTS)%nat).
  assert (Hk : (k <= List.length a)%nat) by (unfold k; lia).
  assert (Hsplit : skipn k a ++ b = skipn k (a ++ b)).
  { rewrite skipn_app.
    replace (k - List.length a)%nat with 0%nat by lia. reflexivity. }
  rewrite Hsplit, skipn_skipn. f_equal. unfold k. lia.
Qed.

Lemma data_append : forall s r,
  data (append s r) = keep (data s ++ [sampleOf r]).
Proof. intros s r. rewrite <- evict_keep. reflexivity. Qed.

Lemma length_data_append : forall s r,
  (List.length (data (append s r)) <= MAX_DATA_POINTS)%nat.
Proof. intros s r. rewrite data_append, keep_length. lia. Qed.

(** The window after a series of appends holds the newest
    [MAX_DATA_POINTS] of everything that went in, in order. *)
Lemma data_appendAll : forall rs s,
  (List.length (data s) <= MAX_DATA_POINTS)%nat ->
  data (appendAll s rs) = keep (data s ++ map sampleOf rs).
Proof.
  induction rs as [| r rs IH]; intros s Hs.
  - cbn [appendAll fold_left map]. rewrite app_nil_r.
    symmetry. apply keep_short. exact Hs.
  - unfold appendAll in *. cbn [fold_left map].
    rewrite IH by apply length_data_append.
    rewrite data_append, keep_app, <- app_assoc. reflexivity.
Qed.

(** One append onto a window within capacity: below capacity nothing is
    dropped, at capacity the head is. *)
Lemma append_fifo : forall s r,
  (List.length (data s) <= MAX_DATA_POINTS)%nat ->
  data (append s r) =
    if (List.length (data s) <? MAX_DATA_POINTS)%nat
    then data s ++ [sampleOf r]
    else tl (data s) ++ [sampleOf r].
Proof.
  intros s r Hs. rewrite data_append. unfold keep.
  rewrite length_app. cbn [List.length].
  destruct (Nat.ltb_spec (List.length (data s)) MAX_DATA_POINTS) as [Hlt | Hge].
  - replace (List.length (data s) + 1 - MAX_DATA_POINTS)%nat with 0%nat by lia.
    reflexivity.
  - replace (List.length (data s) + 1 - MAX_DATA_POINTS)%nat with 1%nat by lia.
    destruct (data s) as [| p l] eqn:E.
    + cbn in Hge. unfold MAX_DATA_POINTS in Hge. lia.
    + reflexivity.
Qed.

End Window.

(** C1.  The window never holds more than 60 samples along any series of
    calls of [updateData] from the empty window of a fresh page; each call
    appends its sample and, exactly when the window was full, drops the
    single oldest one; after 61 calls the window holds 60 samples and starts
    with the second sample appended. *)
Theorem window_capacity_fifo : forall rs : list Reading,
  let s := appendAll initialState rs in
  (List.length (data s) <= 60)%nat /\
  (forall r,
     data (append s r) =
       if (List.length (data s) <? 60)%nat
       then data s ++ [sampleOf r]
       else tl (data s) ++ [sampleOf r]) /\
  (List.length rs = 61%nat ->
     List.length (data s) = 60%nat /\
     hd_error (data s) = nth_error (map sampleOf rs) 1).
Proof.
  intros rs s.
  assert (Hdata : data s = keep (map sampleOf rs)).
  { unfold s. rewrite data_appendAll by (cbn; unfold MAX_DATA_POINTS; lia).
    reflexivity. }
  assert (Hlen : (List.length (data s) <= 60)%nat).
  { rewrite Hdata, keep_length. unfold MAX_DATA_POINTS. lia. }
  split; [exact Hlen |]. split.
  - intros r. apply append_fifo. exact Hlen.
  - intros H61. rewrite Hdata. unfold keep.
    rewrite length_map, H61. unfold MAX_DATA_POINTS.
    change (61 - 60)%nat with 1%nat.
    split.
    + rewrite length_skipn, length_map, H61. reflexivity.
    + destruct (map sampleOf rs) as [| a [| b l]]; reflexivity.
  Qed.

(** C1 at sixty-one readings taken one second apart. *)
Lemma window_capacity_fifo_witness :
  List.length sixtyOne = 61%nat /\
  List.length (data (appendAll initialState sixtyOne)) = 60%nat /\
  hd_error (data (appendAll initialState sixtyOne))
    = nth_error (map sampleOf sixtyOne) 1.
Proof.
  split; [reflexivity |].
  apply (window_capacity_fifo sixtyOne). reflexivity.
Defined.

(* ================================================================== *)
(** * The three patterns                                               *)
(* ================================================================== *)

Section Matching.

Variable lit : jsstring.
Variable cls : N -> bool.

Lemma takeWhile_dropWhile : forall p s, takeWhile p s ++ dropWhile p s = s.
Proof.
  intros p s. induction s as [| c s IH]; cbn; [reflexivity |].
  destruct (p c); cbn; [rewrite IH |]; reflexivity.
Qed.

Lemma takeWhile_all : forall p s, forallb p (takeWhile p s) = true.
Proof.
  intros p s. induction s as [| c s IH]; cbn; [reflexivity |].
  destruct (p c) eqn:E; cbn; [rewrite E, IH |]; reflexivity.
Qed.

Lemma dropWhile_head : forall p s,
  match dropWhile p s with [] => True | c :: _ => p c = false end.
Proof.
  intros p s. induction s as [| c s IH]; cbn; [exact I |].
  destruct (p c) eqn:E; [exact IH | exact E].
Qed.

(** A run of the class followed by something outside it is read whole and
    no further. *)
Lemma takeWhile_run : forall p run rest,
  forallb p run = true ->
  match rest with [] => True | c :: _ => p c = false end ->
  takeWhile p (run ++ rest) = run.
Proof.
  intros p run rest. induction run as [| c run IH]; cbn; intros Hrun Hrest.
  - destruct rest as [| c rest]; cbn; [reflexivity | now rewrite Hrest].
  - apply andb_prop in Hrun. destruct Hrun as [Hc Hrun].
    rewrite Hc, IH by assumption. reflexivity.
Qed.

Lemma stripPrefix_app : forall p s, stripPrefix p (p ++ s) = Some s.
Proof.
  induction p as [| a p IH]; intros s; cbn; [reflexivity |].
  rewrite N.eqb_refl. apply IH.
Qed.

Lemma stripPrefix_Some : forall p s r, stripPrefix p s = Some r -> s = p ++ r.
Proof.
  induction p as [| a p IH]; intros s r; cbn.
  - intros [= <-]. reflexivity.
  - destruct s as [| b s]; [discriminate |].
    destruct (N.eqb_spec a b) as [<- | _]; [| discriminate].
    intros H. rewrite (IH _ _ H). reflexivity.
Qed.

(** [matchHere] finds exactly the occurrences at offset 0. *)
Lemma matchHere_occursAt : forall s cap,
  matchHere lit cls s = Some cap <-> occursAt lit cls s 0 cap.
Proof.
  intros s cap. unfold matchHere, occursAt. cbn [skipn]. split.
  - destruct (stripPrefix lit s) as [r |] eqn:Hp; [| discriminate].
    apply stripPrefix_Some in Hp.
    destruct (takeWhile cls r) as [| c run] eqn:Hrun; [discriminate |].
    intros [= <-]. exists (dropWhile cls r).
    rewrite <- Hrun. repeat split.
    + rewrite takeWhile_dropWhile. exact Hp.
    + rewrite Hrun. discriminate.
    + apply takeWhile_all.
    + apply dropWhile_head.
  - intros (rest & Hs & Hne & Hall & Hrest). rewrite Hs, stripPrefix_app.
    rewrite takeWhile_run by assumption.
    destruct cap; [contradiction |]. reflexivity.
Qed.

Lemma occursAt_cons : forall c s j cap,
  occursAt lit cls (c :: s) (S j) cap <-> occursAt lit cls s j cap.
Proof. intros. unfold occursAt. cbn [skipn]. reflexivity. Qed.

Lemma occursAt_nil : forall j cap, ~ occursAt lit cls [] j cap.
Proof.
  intros j cap (rest & Hs & Hne & _). rewrite skipn_nil in Hs.
  symmetry in Hs. apply app_eq_nil in Hs. destruct Hs as [_ Hs].
  apply app_eq_nil in Hs. destruct Hs as [Hs _]. contradiction.
Qed.

(** [regexCapture] returns the capture of the leftmost occurrence. *)
Lemma regexCapture_first : forall i s cap,
  firstOccurrence lit cls s i cap -> regexCapture lit cls s = Some cap.
Proof.
  induction i as [| i IH]; intros s cap [Hocc Hleft].
  - apply matchHere_occursAt in Hocc.
    destruct s; cbn [regexCapture]; rewrite Hocc; reflexivity.
  - destruct s as [| c s]; [now apply occursAt_nil in Hocc |].
    cbn [regexCapture].
    destruct (matchHere lit cls (c :: s)) as [cap' |] eqn:Hm.
    + apply matchHere_occursAt in Hm. exfalso.
      apply (Hleft 0%nat cap'); [lia | exact Hm].
    + apply IH. split.
      * apply occursAt_cons in Hocc. exact Hocc.
      * intros j cap' Hj Hocc'. apply (Hleft (S j) cap'); [lia |].
        apply occursAt_cons. exact Hocc'.
Qed.

(** Conversely, what [regexCapture] returns is the capture of the
    leftmost occurrence. *)
Lemma regexCapture_Some : forall s cap,
  regexCapture lit cls s = Some cap ->
  exists i, firstOccurrence lit cls s i cap.
Proof.
  induction s as [| c s IH]; intros cap; cbn [regexCapture].
  - destruct (matchHere lit cls []) as [cap' |] eqn:Hm; [| discriminate].
    intros [= <-]. apply matchHere_occursAt in Hm.
    now apply occursAt_nil in Hm.
  - destruct (matchHere lit cls (c :: s)) as [cap' |] eqn:Hm.
    + intros [= <-]. exists 0%nat. split.
      * apply matchHere_occursAt. exact Hm.
      * intros j cap2 Hj. lia.
    + intros H. destruct (IH _ H) as (i & Hocc & Hleft).
      exists (S i). split.
      * apply occursAt_cons. exact Hocc.
      * intros [| j] cap2 Hj Hocc'.
        -- apply matchHere_occursAt in Hocc'. congruence.
        -- apply occursAt_cons in Hocc'. apply (Hleft j cap2); [lia | exact Hocc'].
Qed.

(** [null] is returned exactly when the pattern occurs nowhere. *)
Lemma regexCapture_None : forall s,
  regexCapture lit cls s = None <-> forall i cap, ~ occursAt lit cls s i cap.
Proof.
  intros s. split.
  - induction s as [| c s IH]; intros H i cap Hocc.
    + now apply occursAt_nil in Hocc.
    + cbn [regexCapture] in H.
      destruct (matchHere lit cls (c :: s)) as [cap' |] eqn:Hm; [discriminate |].
      destruct i as [| i].
      * apply matchHere_occursAt in Hocc. congruence.
      * apply occursAt_cons in Hocc. exact (IH H i cap Hocc).
  - intros H. destruct (regexCapture lit cls s) as [cap |] eqn:E; [| reflexivity].
    apply regexCapture_Some in E. destruct E as (i & Hocc & _).
    now apply H in Hocc.
Qed.

End Matching.

(** ** Trimming does not change what the patterns find *)

Section Trimming.

Variable lit : jsstring.
Variable cls : N -> bool.
Hypothesis lit_solid : solid lit.
Hypothesis cls_solid : forall c, cls c = true -> isWhiteSpace c = false.

Lemma stripPrefix_trailing : forall l t w,
  solid l -> forallb isWhiteSpace w = true ->
  stripPrefix l (t ++ w) = option_map (fun r => r ++ w) (stripPrefix l t).
Proof.
  unfold solid.
  induction l as [| a l IH]; intros t w Hl Hw; [reflexivity |].
  cbn [forallb] in Hl. apply andb_prop in Hl. destruct Hl as [Ha Hl].
  destruct t as [| b t].
  - cbn. destruct w as [| c w]; [reflexivity |].
    cbn [forallb] in Hw. apply andb_prop in Hw. destruct Hw as [Hc _].
    destruct (N.eqb_spec a c) as [-> | _]; [| reflexivity].
    rewrite Hc in Ha. discriminate.
  - cbn. destruct (a =? b)%N; [apply IH; assumption | reflexivity].
Qed.

Lemma takeWhile_trailing : forall r w,
  forallb isWhiteSpace w = true ->
  takeWhile cls (r ++ w) = takeWhile cls r.
Proof.
  intros r w Hw. induction r as [| c r IH].
  - cbn. destruct w as [| c w]; [reflexivity |].
    cbn [forallb] in Hw. apply andb_prop in Hw. destruct Hw as [Hc _].
    cbn. destruct (cls c) eqn:E; [| reflexivity].
    apply cls_solid in E. congruence.
  - cbn. destruct (cls c); [rewrite IH |]; reflexivity.
Qed.

Lemma matchHere_trailing : forall t w,
  forallb isWhiteSpace w = true ->
  matchHere lit cls (t ++ w) = matchHere lit cls t.
Proof.
  intros t w Hw. unfold matchHere.
  rewrite stripPrefix_trailing by assumption.
  destruct (stripPrefix lit t) as [r |]; cbn [option_map]; [| reflexivity].
  rewrite takeWhile_trailing by assumption. reflexivity.
Qed.

Lemma regexCapture_spaces : forall w,
  forallb isWhiteSpace w = true ->
  regexCapture lit cls w = regexCapture lit cls [].
Proof.
  induction w as [| c w IH]; intros Hw; [reflexivity |].
  cbn [regexCapture].
  pose proof (matchHere_trailing [] (c :: w) Hw) as Hm.
  cbn [app] in Hm. rewrite Hm.
  cbn [forallb] in Hw. apply andb_prop in Hw. destruct Hw as [_ Hw].
  rewrite (IH Hw). cbn [regexCapture].
  destruct (matchHere lit cls []); reflexivity.
Qed.

Lemma regexCapture_trailing : forall t w,
  forallb isWhiteSpace w = true ->
  regexCapture lit cls (t ++ w) = regexCapture lit cls t.
Proof.
  intros t w Hw. induction t as [| c t IH].
  - apply regexCapture_spaces. exact Hw.
  - pose proof (matchHere_trailing (c :: t) w Hw) as Hm.
    cbn [app] in Hm |- *. cbn [regexCapture].
    rewrite Hm, IH. reflexivity.
Qed.

Lemma regexCapture_leading : forall s,
  lit <> [] ->
  regexCapture lit cls (dropWhile isWhiteSpace s) = regexCapture lit cls s.
Proof.
  intros s Hne. destruct lit as [| a l] eqn:El; [contradiction |].
  unfold solid in lit_solid. cbn [forallb] in lit_solid.
  apply andb_prop in lit_solid. destruct lit_solid as [Ha _].
  induction s as [| c s IH]; [reflexivity |].
  cbn [dropWhile]. destruct (isWhiteSpace c) eqn:Ec; [| reflexivity].
  rewrite IH. cbn [regexCapture]. unfold matchHere. cbn [stripPrefix].
  destruct (N.eqb_spec a c) as [-> | _]; [| reflexivity].
  rewrite Ec in Ha. discriminate.
Qed.

Lemma regexCapture_trim : forall s,
  lit <> [] -> regexCapture lit cls (trim s) = regexCapture lit cls s.
Proof.
  intros s Hne. rewrite <- (regexCapture_leading s Hne).
  set (u := dropWhile isWhiteSpace s).
  assert (Hu : u = trim s ++ rev (takeWhile isWhiteSpace (rev u))).
  { unfold trim. fold u. rewrite <- rev_app_distr, takeWhile_dropWhile.
    symmetry. apply rev_involutive. }
  transitivity (regexCapture lit cls
                  (trim s ++ rev (takeWhile isWhiteSpace (rev u))));
    [| rewrite <- Hu; reflexivity].
  symmetry. apply regexCapture_trailing.
  rewrite forallb_forall. intros c Hc. apply in_rev in Hc.
  pose proof (takeWhile_all isWhiteSpace (rev u)) as Hall.
  rewrite forallb_forall in Hall. apply Hall. exact Hc.
Qed.

End Trimming.

Lemma isDigit_solid : forall c, isDigit c = true -> isWhiteSpace c = false.
Proof.
  intros c H. unfold isDigit in H. apply andb_prop in H.
  destruct H as [Hlo Hhi]. apply N.leb_le in Hlo, Hhi.
  assert (Hc : (c = 48 \/ c = 49 \/ c = 50 \/ c = 51 \/ c = 52 \/
                c = 53 \/ c = 54 \/ c = 55 \/ c = 56 \/ c = 57)%N) by lia.
  repeat (destruct Hc as [-> | Hc]; [reflexivity |]). subst c. reflexivity.
Qed.

Lemma isDigitOrDot_solid : forall c,
  isDigitOrDot c = true -> isWhiteSpace c = false.
Proof.
  intros c H. unfold isDigitOrDot in H. apply orb_prop in H.
  destruct H as [H | H]; [now apply isDigit_solid |].
  apply N.eqb_eq in H. subst c. reflexivity.
Qed.

Lemma hrPattern_trim : forall s, hrPattern (trim s) = hrPattern s.
Proof.
  intros s. apply regexCapture_trim;
    [reflexivity | exact isDigit_solid | discriminate].
Qed.

Lemma tempPattern_trim : forall s, tempPattern (trim s) = tempPattern s.
Proof.
  intros s. apply regexCapture_trim;
    [reflexivity | exact isDigitOrDot_solid | discriminate].
Qed.

Lemma spo2Pattern_trim : forall s, spo2Pattern (trim s) = spo2Pattern s.
Proof.
  intros s. apply regexCapture_trim;
    [reflexivity | exact isDigit_solid | discriminate].
Qed.

(* ================================================================== *)
(** * The notification handler                                         *)
(* ================================================================== *)

(** The handler in one equation: nothing happens when no pattern matches;
    otherwise each matched field is parsed, each other field is read from
    the render that created the handler, and the sample is pushed. *)
Lemma handler_cases : forall render now decoded s,
  handleCharacteristicValueChanged render now decoded s =
    match hrPattern decoded, tempPattern decoded, spo2Pattern decoded with
    | None, None, None => s
    | h, t, o =>
        updateData now
          (match h with Some g => parseInt g | None => currentHR render end)
          (match t with Some g => parseFloat g | None => currentTemp render end)
          (match o with Some g => parseInt g | None => currentSpO2 render end)
          s
    end.
Proof.
  intros render now decoded s. unfold handleCharacteristicValueChanged.
  rewrite hrPattern_trim, tempPattern_trim, spo2Pattern_trim.
  destruct (hrPattern decoded), (tempPattern decoded), (spo2Pattern decoded);
    reflexivity.
Qed.

Lemma newest_snoc : forall l p, newest (l ++ [p]) = Some p.
Proof.
  intros l p. unfold newest. rewrite length_app. cbn [List.length].
  replace (List.length l + 1 - 1)%nat with (List.length l) by lia.
  rewrite nth_error_app2 by lia. rewrite Nat.sub_diag. reflexivity.
Qed.

Lemma keep_snoc : forall l p,
  keep (l ++ [p]) = skipn (List.length l + 1 - MAX_DATA_POINTS) l ++ [p].
Proof.
  intros l p. unfold keep. rewrite length_app. cbn [List.length].
  rewrite skipn_app.
  replace (List.length l + 1 - MAX_DATA_POINTS - List.length l)%nat
    with 0%nat by (unfold MAX_DATA_POINTS; lia).
  reflexivity.
Qed.

Lemma newest_evict_snoc : forall l p, newest (evict (l ++ [p])) = Some p.
Proof. intros l p. rewrite evict_keep, keep_snoc. apply newest_snoc. Qed.

(** After [updateData] the window ends with the new sample and the three
    displays show it. *)
Lemma updateData_displays : forall now hr temp spo2 s,
  let s' := updateData now hr temp spo2 s in
  newest (data s') = Some (mkDataPoint (formatTime now) hr temp spo2) /\
  currentHR s' = hr /\ currentTemp s' = temp /\ currentSpO2 s' = spo2.
Proof.
  intros now hr temp spo2 s s'. split; [| repeat split].
  unfold s', updateData. cbn [data setData]. apply newest_evict_snoc.
Qed.



(** C8.  The payload [H:82,T:36.9,O:97] appends the sample
    {82, 36.9, 97}, whatever the state and whatever render the handler
    belongs to. *)
Theorem full_payload_sample : forall render now s,
  let s' := handleCharacteristicValueChanged render now
              (str "H:82,T:36.9,O:97") s in
  let sample := mkDataPoint (formatTime now) (int 82) (Num (369 # 10)) (int 97) in
  data s' = evict (data s ++ [sample]) /\
  newest (data s') = Some sample.
Proof.
  intros render now s s' sample.
  assert (Hs' : s' = updateData now (int 82) (Num (369 # 10)) (int 97) s).
  { unfold s'. rewrite handler_cases. reflexivity. }
  rewrite Hs'. split; [reflexivity |].
  apply updateData_displays.
Qed.

Lemma updateData_displaysNewest : forall now hr temp spo2 s,
  displaysNewest (updateData now hr temp spo2 s).
Proof.
  intros now hr temp spo2 s.
  destruct (updateData_displays now hr temp spo2 s) as (Hn & Hh & Ht & Ho).
  eexists. split; [exact Hn |]. cbn [heartRate temperature oxygen].
  repeat split; assumption.
Qed.

(** C10.  After every call of [updateData] the three displays show the
    fields of the last sample of the window; so they do after every
    notification that appends a sample and after every demo tick. *)
Theorem displays_track_newest :
  (forall now hr temp spo2 s, displaysNewest (updateData now hr temp spo2 s)) /\
  (forall render now decoded s,
     let s' := handleCharacteristicValueChanged render now decoded s in
     s' = s \/ displaysNewest s') /\
  (forall now m d s, displaysNewest (snd (tick now m d s))).
Proof.
  pose proof updateData_displaysNewest as H.
  split; [exact H |]. split.
  - intros render now decoded s s'. unfold s'. rewrite handler_cases.
    destruct (hrPattern decoded), (tempPattern decoded), (spo2Pattern decoded);
      try (right; apply H).
    left. reflexivity.
  - intros now m d s. apply H.
Qed.

(** ** Fields missing from a payload *)

(** A payload with a heart rate only: temperature and oxygen of the new
    sample are the ones of the render that created the handler. *)
Lemma heart_rate_only : forall render now decoded s g,
  hrPattern decoded = Some g ->
  tempPattern decoded = None ->
  spo2Pattern decoded = None ->
  newest (data (handleCharacteristicValueChanged render now decoded s)) =
    Some (mkDataPoint (formatTime now) (parseInt g)
                      (currentTemp render) (currentSpO2 render)).
Proof.
  intros render now decoded s g Hh Ht Ho.
  rewrite handler_cases, Hh, Ht, Ho. apply updateData_displays.
Qed.

(** When the handler belongs to a render that shows the newest sample, the
    missing fields are those of that sample. *)
Lemma heart_rate_only_fresh : forall render now decoded s g p,
  hrPattern decoded = Some g ->
  tempPattern decoded = None ->
  spo2Pattern decoded = None ->
  newest (data s) = Some p ->
  currentTemp render = temperature p ->
  currentSpO2 render = oxygen p ->
  newest (data (handleCharacteristicValueChanged render now decoded s)) =
    Some (mkDataPoint (formatTime now) (parseInt g) (temperature p) (oxygen p)).
Proof.
  intros render now decoded s g p Hh Ht Ho _ <- <-.
  now apply heart_rate_only.
Qed.

(** C2.  On a fresh page the device is connected and sends
    [H:82,T:36.9,O:97], then [H:90].  The handler subscribed by
    [connectBluetooth] belongs to the render of the click, where the three
    displays were 0: the second sample is {90, 0, 0}, not {90, 36.9, 97}. *)
Theorem carry_forward_stale :
  let w := run initialWorld
             [ClickConnect pairing afterNoon;
              Notification (afterNoon 5) (str "H:82,T:36.9,O:97");
              Notification (afterNoon 6) (str "H:90")] in
  reachable w /\
  hrPattern (str "H:90") = Some (str "90") /\
  tempPattern (str "H:90") = None /\
  spo2Pattern (str "H:90") = None /\
  readings (data (ui w)) =
    [(int 82, Num (369 # 10), int 97); (int 90, int 0, int 0)].
Proof.
  intros w. split; [eexists; reflexivity |].
  repeat split; reflexivity.
Qed.

(** The second example of the claim does hold for a handler created by a
    render that shows the prior sample {90, 36.5, 96}: [T:37.0] then gives
    {90, 37.0, 96}. *)
Lemma temperature_only_example : forall render now s,
  currentHR render = int 90 ->
  currentSpO2 render = int 96 ->
  newest (data (handleCharacteristicValueChanged render now (str "T:37.0") s)) =
    Some (mkDataPoint (formatTime now) (int 90) (int 37) (int 96)).
Proof.
  intros render now s Hh Ho. rewrite handler_cases.
  change (hrPattern (str "T:37.0")) with (@None jsstring).
  change (spo2Pattern (str "T:37.0")) with (@None jsstring).
  change (tempPattern (str "T:37.0")) with (Some (str "37.0")).
  rewrite Hh, Ho. apply updateData_displays.
Qed.

(** ** Repeated fields *)

(** C9.  When a field pattern occurs several times in a payload, the sample
    carries the value of its leftmost occurrence, whatever follows it; this
    holds for each of the three fields on its own.  For [H:70,H:200] the
    heart rate is 70. *)
Theorem first_occurrence_wins : forall render now decoded s,
  let s' := handleCharacteristicValueChanged render now decoded s in
  (forall i cap,
     firstOccurrence (str "H:") isDigit decoded i cap ->
     exists p, newest (data s') = Some p /\ heartRate p = parseInt cap) /\
  (forall i cap,
     firstOccurrence (str "T:") isDigitOrDot decoded i cap ->
     exists p, newest (data s') = Some p /\ temperature p = parseFloat cap) /\
  (forall i cap,
     firstOccurrence (str "O:") isDigit decoded i cap ->
     exists p, newest (data s') = Some p /\ oxygen p = parseInt cap).
Proof.
  intros render now decoded s s'. unfold s'. rewrite handler_cases.
  repeat split; intros i cap Hfirst; apply regexCapture_first in Hfirst.
  - fold (hrPattern decoded) in Hfirst. rewrite Hfirst.
    destruct (tempPattern decoded), (spo2Pattern decoded);
      (eexists; split; [apply updateData_displays | reflexivity]).
  - fold (tempPattern decoded) in Hfirst. rewrite Hfirst.
    destruct (hrPattern decoded), (spo2Pattern decoded);
      (eexists; split; [apply updateData_displays | reflexivity]).
  - fold (spo2Pattern decoded) in Hfirst. rewrite Hfirst.
    destruct (hrPattern decoded), (tempPattern decoded);
      (eexists; split; [apply updateData_displays | reflexivity]).
Qed.

(** C9 at the payload [H:70,H:200]: the occurrence at offset 0 captures
    [70], and 70 is the heart rate of the sample. *)
Lemma first_occurrence_wins_witness :
  firstOccurrence (str "H:") isDigit (str "H:70,H:200") 0 (str "70") /\
  exists p,
    newest (data (handleCharacteristicValueChanged initialState noon
                    (str "H:70,H:200") initialState)) = Some p /\
    heartRate p = int 70.
Proof.
  assert (H : firstOccurrence (str "H:") isDigit (str "H:70,H:200") 0 (str "70")).
  { split.
    - exists (str ",H:200"). repeat split. discriminate.
    - intros j cap' Hj. lia. }
  split; [exact H |].
  exact (proj1 (first_occurrence_wins initialState noon (str "H:70,H:200")
                  initialState) 0%nat (str "70") H).
Defined.

(** ** The temperature capture *)

(** C4.  The temperature pattern accepts any run of digits and full stops.
    On the payload [T:.] it matches and captures [.], which does not have
    the shape [<digits>[.<digits>]]; [parseFloat] returns [NaN] for it, and
    a sample with temperature [NaN] is appended. *)
Theorem temperature_capture_malformed :
  tempPattern (str "T:.") = Some (str ".") /\
  isDecimalShape (str ".") = false /\
  parseFloat (str ".") = NaN /\
  tempPattern (str "T:1.2.3") = Some (str "1.2.3") /\
  isDecimalShape (str "1.2.3") = false /\
  forall render now s,
    newest (data (handleCharacteristicValueChanged render now (str "T:.") s)) =
      Some (mkDataPoint (formatTime now) (currentHR render) NaN
                        (currentSpO2 render)).
Proof.
  repeat (split; [reflexivity |]).
  intros render now s. rewrite handler_cases.
  change (hrPattern (str "T:.")) with (@None jsstring).
  change (spo2Pattern (str "T:.")) with (@None jsstring).
  change (tempPattern (str "T:.")) with (Some (str ".")).
  apply updateData_displays.
Qed.

(* ================================================================== *)
(** * Demo mode and the connection                                     *)
(* ================================================================== *)

(** C3.  On a fresh page the device is connected and the demo button, which
    stays enabled, is clicked: [isConnected] and [isDemoMode] are both true,
    the subscription is still in place and the interval runs. *)
Theorem demo_while_connected :
  let w := run initialWorld
             [ClickConnect pairing afterNoon; ClickDemo (afterNoon 5)] in
  reachable w /\
  isConnected (ui w) = true /\
  isDemoMode (ui w) = true /\
  timer w = Some initialMock /\
  listener w = Some (handleCharacteristicValueChanged initialState).
Proof.
  intros w. split; [eexists; reflexivity |].
  repeat split; reflexivity.
Qed.

(** The connect path keeps the two flags apart: started from a page that is
    not connected, it never ends with both set. *)
Lemma connect_keeps_exclusive : forall w bt clock,
  isConnected (ui w) = false ->
  let w' := dispatch w (ClickConnect bt clock) in
  isConnected (ui w') && isDemoMode (ui w') = false.
Proof.
  intros w bt clock Hc. cbn [dispatch]. rewrite Hc.
  cbn [orb]. destruct (isDemoMode (ui w)) eqn:Hd.
  - rewrite Hc. reflexivity.
  - unfold connectBluetooth, attempt, demoEffect.
    attempt_cases bt; cbn; catch_cases;
      rewrite ?Hd, ?Hc; cbn; rewrite ?Hc; reflexivity.
Qed.

(* ================================================================== *)
(** * Binary64 rounding                                                *)
(* ================================================================== *)

Section Binary64.

Lemma gt_iff : forall a b, gt a b = true <-> b < a.
Proof.
  intros a b. unfold gt. rewrite negb_true_iff. split.
  - intros H. apply Qnot_le_lt. intros Hle. apply Qle_bool_iff in Hle. congruence.
  - intros H. destruct (Qle_bool a b) eqn:E; [| reflexivity].
    apply Qle_bool_iff in E. apply Qlt_not_le in H. contradiction.
Qed.

Lemma gt_false_iff : forall a b, gt a b = false <-> a <= b.
Proof.
  intros a b. unfold gt. rewrite negb_false_iff. apply Qle_bool_iff.
Qed.

Lemma pow2_pos : forall e, 0 < pow2 e.
Proof. intros e. apply Qpower_0_lt. reflexivity. Qed.

Lemma pow2_add : forall a b, pow2 (a + b) == pow2 a * pow2 b.
Proof. intros a b. apply Qpower_plus. discriminate. Qed.

Lemma pow2_mono : forall a b, (a <= b)%Z -> pow2 a <= pow2 b.
Proof. intros a b H. apply Qpower_le_compat_l; [exact H | discriminate]. Qed.

Lemma ulpBetween_spec : forall fuel lo hi a e0,
  (hi - lo < 2 ^ Z.of_nat fuel)%Z ->
  (lo <= e0 <= hi)%Z ->
  a < pow2 (e0 + 53) ->
  (lo <= ulpBetween fuel lo hi a <= e0)%Z /\
  a < pow2 (ulpBetween fuel lo hi a + 53).
Proof.
  induction fuel as [| fuel IH]; intros lo hi a e0 Hsize He Ha.
  - cbn [ulpBetween]. change (2 ^ Z.of_nat 0)%Z with 1%Z in Hsize.
    assert (e0 = hi) by lia. subst e0. split; [lia | exact Ha].
  - cbn [ulpBetween]. rewrite Nat2Z.inj_succ, Z.pow_succ_r in Hsize by lia.
    destruct (Z.leb_spec hi lo) as [Hle | Hgt].
    + assert (e0 = hi) by lia. subst e0. split; [lia | exact Ha].
    + set (mid := ((lo + hi) / 2)%Z).
      assert (Hmid : (lo <= mid < hi)%Z).
      { unfold mid. split.
        - apply Z.div_le_lower_bound; lia.
        - apply Z.div_lt_upper_bound; lia. }
      assert (Hhalf : (2 * mid <= lo + hi < 2 * mid + 2)%Z).
      { unfold mid. pose proof (Z.mul_div_le (lo + hi) 2 ltac:(lia)).
        pose proof (Z.mul_succ_div_gt (lo + hi) 2 ltac:(lia)). lia. }
      destruct (gt (pow2 (mid + 53)) a) eqn:E.
      * apply gt_iff in E.
        destruct (Z.le_gt_cases e0 mid) as [H0 | H0].
        -- apply IH; [lia | lia | exact Ha].
        -- destruct (IH lo mid a mid) as [Hr Hlt]; [lia | lia | exact E |].
           split; [lia | exact Hlt].
      * apply gt_false_iff in E.
        assert (H0 : (mid < e0)%Z).
        { apply Z.lt_nge. intros Hc. apply (Qlt_not_le _ _ Ha).
          apply Qle_trans with (pow2 (mid + 53)); [| exact E].
          apply pow2_mono. lia. }
        destruct (IH (mid + 1)%Z hi a e0) as [Hr Hlt]; [lia | lia | exact Ha |].
        split; [lia | exact Hlt].
Qed.

Lemma ulpExponent_spec : forall a e0,
  (-1074 <= e0 <= 971)%Z -> a < pow2 (e0 + 53) ->
  (-1074 <= ulpExponent a <= e0)%Z /\ a < pow2 (ulpExponent a + 53).
Proof.
  intros a e0 He Ha. unfold ulpExponent.
  apply ulpBetween_spec; [reflexivity | exact He | exact Ha].
Qed.

Lemma roundHalfEven_cases : forall x,
  roundHalfEven x = Qfloor x \/
  (roundHalfEven x = (Qfloor x + 1)%Z /\ (1 # 2) <= x - inject_Z (Qfloor x)).
Proof.
  intros x. unfold roundHalfEven.
  destruct (gt (1 # 2) (x - inject_Z (Qfloor x))) eqn:E1; [left; reflexivity |].
  apply gt_false_iff in E1.
  destruct (gt (x - inject_Z (Qfloor x)) (1 # 2));
    [right; split; [reflexivity | exact E1] |].
  destruct (Z.even (Qfloor x));
    [left; reflexivity | right; split; [reflexivity | exact E1]].
Qed.

(** Rounding does not pass an integer. *)
Lemma roundHalfEven_le : forall x (N : Z),
  x <= inject_Z N -> (roundHalfEven x <= N)%Z.
Proof.
  intros x N Hx.
  assert (Hf : (Qfloor x <= N)%Z).
  { rewrite <- (Qfloor_Z N). apply Qfloor_resp_le, Hx. }
  destruct (roundHalfEven_cases x) as [-> | [-> Hhalf]]; [exact Hf |].
  destruct (Z.eq_dec (Qfloor x) N) as [E | E]; [| lia].
  exfalso. rewrite E in Hhalf. lra.
Qed.

(** Below the midpoint under an integer, rounding stays under it. *)
Lemma roundHalfEven_lt : forall x (N : Z),
  x < inject_Z N - (1 # 2) -> (roundHalfEven x <= N - 1)%Z.
Proof.
  intros x N Hx.
  assert (Hf : (Qfloor x <= N - 1)%Z).
  { assert (H : (Qfloor x < N)%Z).
    { rewrite Zlt_Qlt. apply Qle_lt_trans with x; [apply Qfloor_le | lra]. }
    lia. }
  destruct (roundHalfEven_cases x) as [-> | [-> Hhalf]]; [exact Hf |].
  destruct (Z.eq_dec (Qfloor x) (N - 1)) as [E | E]; [| lia].
  exfalso. rewrite E in Hhalf.
  replace (N - 1)%Z with (N + -1)%Z in Hhalf by lia.
  rewrite inject_Z_plus in Hhalf. change (inject_Z (-1)) with (-1 # 1) in Hhalf.
  lra.
Qed.

Lemma roundHalfEven_nonneg : forall x, 0 <= x -> (0 <= roundHalfEven x)%Z.
Proof.
  intros x Hx.
  assert (Hf : (0 <= Qfloor x)%Z).
  { change 0%Z with (Qfloor 0). apply Qfloor_resp_le, Hx. }
  destruct (roundHalfEven_cases x) as [-> | [-> _]]; lia.
Qed.

Lemma Qabs_nonneg_eq : forall q, 0 <= q -> Qabs q = q.
Proof.
  intros [n d] H. unfold Qle in H. cbn in H. cbn.
  rewrite Z.abs_eq by lia. reflexivity.
Qed.

(** The shape of a rounded non-negative number. *)
Lemma fl_shape : forall q, 0 <= q ->
  fl q == inject_Z (roundHalfEven (q / pow2 (ulpExponent q)))
          * pow2 (ulpExponent q).
Proof.
  intros q Hq. unfold fl. rewrite Qred_correct, (Qabs_nonneg_eq Hq). reflexivity.
Qed.

Lemma fl_nonneg : forall q, 0 <= q -> 0 <= fl q.
Proof.
  intros q Hq. rewrite (fl_shape Hq).
  apply Qmult_le_0_compat; [| apply Qlt_le_weak, pow2_pos].
  change 0 with (inject_Z 0). rewrite <- Zle_Qle.
  apply roundHalfEven_nonneg. apply Qle_shift_div_l; [apply pow2_pos | lra].
Qed.

(** A rounded number does not pass the top of its binade. *)
Lemma fl_le_top : forall q e0,
  0 <= q -> (-1074 <= e0 <= 971)%Z -> q < pow2 (e0 + 53) ->
  fl q <= pow2 (e0 + 53).
Proof.
  intros q e0 Hq He Hlt.
  destruct (@ulpExponent_spec q e0 He Hlt) as [Hr Hq'].
  rewrite (fl_shape Hq). set (e := ulpExponent q) in *.
  pose proof (pow2_pos e) as Hpos.
  assert (Hm : (roundHalfEven (q / pow2 e) <= 2 ^ 53)%Z).
  { apply roundHalfEven_le. apply Qlt_le_weak, Qlt_shift_div_r; [exact Hpos |].
    replace (e + 53)%Z with (53 + e)%Z in Hq' by lia.
    rewrite (pow2_add 53 e) in Hq'. exact Hq'. }
  apply Qle_trans with (inject_Z (2 ^ 53) * pow2 e).
  - apply Qmult_le_compat_r; [rewrite <- Zle_Qle; exact Hm | lra].
  - apply Qle_trans with (pow2 (e + 53)).
    + replace (e + 53)%Z with (53 + e)%Z by lia. rewrite (pow2_add 53 e).
      apply Qle_refl.
    + apply pow2_mono. lia.
Qed.

(** A product of a number below 1 with 5 does not round up to 5. *)
Lemma fl_below_five : forall q,
  0 <= q -> q <= 5 - 5 * pow2 (-53) -> fl q < 5.
Proof.
  intros q Hq Hlt.
  assert (Hc : 5 - 5 * pow2 (-53) < 5 - pow2 (-51)) by reflexivity.
  destruct (Qlt_le_dec q 4) as [H4 | H4].
  - apply Qle_lt_trans with (pow2 (-51 + 53)); [| reflexivity].
    apply (@fl_le_top q (-51)%Z); [exact Hq | lia | exact H4].
  - assert (H8 : q < pow2 (-50 + 53)).
    { apply Qle_lt_trans with (5 - 5 * pow2 (-53)); [exact Hlt | reflexivity]. }
    destruct (@ulpExponent_spec q (-50)%Z ltac:(lia) H8) as [Hr Hq'].
    assert (He : ulpExponent q = (-50)%Z).
    { destruct (Z.eq_dec (ulpExponent q) (-50)) as [E | E]; [exact E |].
      exfalso. assert (Hle : pow2 (ulpExponent q + 53) <= pow2 2)
        by (apply pow2_mono; lia).
      apply (Qlt_not_le _ _ Hq'). apply Qle_trans with (pow2 2); [exact Hle |].
      exact H4. }
    rewrite (fl_shape Hq), He.
    assert (Hm : (roundHalfEven (q / pow2 (-50)) <= 5 * 2 ^ 50 - 1)%Z).
    { apply roundHalfEven_lt. apply Qlt_shift_div_r; [apply pow2_pos |].
      apply Qle_lt_trans with (5 - 5 * pow2 (-53)); [exact Hlt | reflexivity]. }
    apply Qle_lt_trans with (inject_Z (5 * 2 ^ 50 - 1) * pow2 (-50));
      [| reflexivity].
    apply Qmult_le_compat_r; [rewrite <- Zle_Qle; exact Hm |].
    apply Qlt_le_weak, pow2_pos.
Qed.

(** The largest binary64 number below 1 is 1 - 2^-53. *)
Lemma representable_below_one : forall r,
  representable r -> 0 <= r -> r < 1 -> r <= 1 - pow2 (-53).
Proof.
  intros r Hrep Hr H1. unfold representable in Hrep.
  assert (H1' : r < pow2 (-53 + 53)) by exact H1.
  destruct (@ulpExponent_spec r (-53)%Z ltac:(lia) H1') as [He Hlt].
  rewrite (fl_shape Hr) in Hrep. set (e := ulpExponent r) in *.
  set (m := roundHalfEven (r / pow2 e)) in *.
  pose proof (pow2_pos e) as Hpos.
  assert (Hm : (m <= 2 ^ 53 - 1)%Z).
  { assert (H : (m < 2 ^ 53)%Z).
    { rewrite Zlt_Qlt. apply Qmult_lt_r with (pow2 e); [exact Hpos |].
      rewrite Hrep. replace (e + 53)%Z with (53 + e)%Z in Hlt by lia.
      rewrite (pow2_add 53 e) in Hlt. exact Hlt. }
    lia. }
  rewrite <- Hrep.
  apply Qle_trans with (inject_Z (2 ^ 53 - 1) * pow2 e).
  - apply Qmult_le_compat_r; [rewrite <- Zle_Qle; exact Hm | lra].
  - apply Qle_trans with (inject_Z (2 ^ 53 - 1) * pow2 (-53)); [| apply Qle_refl || reflexivity].
    rewrite !(Qmult_comm (inject_Z (2 ^ 53 - 1))).
    apply Qmult_le_compat_r; [apply pow2_mono; lia | discriminate].
Qed.

End Binary64.

(* ================================================================== *)
(** * The demo generator                                               *)
(* ================================================================== *)

Section Generator.

Lemma Qfloor_between : forall (x : Q) (lo hi : Z),
  inject_Z lo <= x -> x < inject_Z hi -> (lo <= Qfloor x < hi)%Z.
Proof.
  intros x lo hi Hlo Hhi. split.
  - rewrite <- (Qfloor_Z lo). apply Qfloor_resp_le. exact Hlo.
  - rewrite Zlt_Qlt. apply Qle_lt_trans with x; [apply Qfloor_le | exact Hhi].
Qed.

(** [Math.floor(Math.random() * 5) - 2] is one of -2 .. 2: the product,
    rounded, stays below 5. *)
Lemma changeHR_range : forall r,
  draw r -> (-2 <= Math_floor (fl (r * 5)) - 2 <= 2)%Z.
Proof.
  intros r [Hrep [H0 H1]]. unfold Math_floor.
  pose proof (representable_below_one Hrep H0 H1) as Htop.
  assert (Hq : 0 <= r * 5) by lra.
  assert (Hle : r * 5 <= 5 - 5 * pow2 (-53)) by lra.
  pose proof (fl_nonneg Hq) as Hlo.
  pose proof (fl_below_five Hq Hle) as Hhi.
  assert (H : (0 <= Qfloor (fl (r * 5)) < 5)%Z).
  { apply Qfloor_between; [exact Hlo | exact Hhi]. }
  lia.
Qed.

(** The binary64 number written [37.3] lies just below 37.3. *)
Lemma lit_37_3_range : 36 <= lit_37_3 /\ lit_37_3 <= 373 # 10.
Proof. split; discriminate. Qed.

Lemma clamp_temp : forall y,
  36 <= Math_max 36 (Math_min lit_37_3 y) /\
  Math_max 36 (Math_min lit_37_3 y) <= 373 # 10.
Proof.
  intros y. unfold Math_max, Math_min. split.
  - apply Q.le_max_l.
  - apply Q.max_lub; [lra |].
    apply Qle_trans with lit_37_3; [apply Q.le_min_l | apply lit_37_3_range].
Qed.

Lemma tenths_range : forall x,
  36 <= x -> x <= 373 # 10 -> (360 <= tenths x <= 373)%Z.
Proof.
  intros x Hlo Hhi. unfold tenths.
  assert (H : (360 <= Qfloor (10 * x + (1 # 2)) < 374)%Z).
  { apply Qfloor_between; unfold inject_Z; lra. }
  lia.
Qed.

(** What [toFixed(1)] prints for a value between 36 and 37.3, and what
    [parseFloat] reads back. *)
Lemma toFixed1_parseFloat : forall x,
  36 <= x -> x <= 373 # 10 ->
  oneFractionalDigit (toFixed1 x) /\
  parseFloat (toFixed1 x) = Num (Qred (tenths x # 10)).
Proof.
  intros x Hlo Hhi. pose proof (tenths_range Hlo Hhi) as Hn.
  unfold toFixed1. generalize dependent (tenths x). intros n Hn.
  assert (Hcases : (n = 360 \/ n = 361 \/ n = 362 \/ n = 363 \/ n = 364 \/
                    n = 365 \/ n = 366 \/ n = 367 \/ n = 368 \/ n = 369 \/
                    n = 370 \/ n = 371 \/ n = 372 \/ n = 373)%Z) by lia.
  repeat (destruct Hcases as [-> | Hcases];
          [split; [do 3 eexists; repeat split | reflexivity] |]).
  subst n. split; [do 3 eexists; repeat split | reflexivity].
Qed.

Lemma walk_inRange : forall m d, inRange m -> inRange (walk m d).
Proof.
  intros m d (Hhr & Htemp & Ho). unfold inRange, walk.
  cbn [mockHR mockTemp mockSpO2]. split; [lia |]. split; [apply clamp_temp |].
  destruct (gt (rndGate d) lit_0_7); lia.
Qed.

Lemma initialMock_inRange : inRange initialMock.
Proof. unfold inRange, initialMock. cbn. repeat split; (lia || lra). Qed.

Lemma walks_inRange : forall ds m, inRange m -> inRange (walks m ds).
Proof.
  induction ds as [| d ds IH]; intros m Hm; [exact Hm |].
  unfold walks in *. cbn [fold_left]. apply IH, walk_inRange, Hm.
Qed.

Lemma gt_false : forall a b, a <= b -> gt a b = false.
Proof.
  intros a b H. unfold gt. apply Qle_bool_iff in H. rewrite H. reflexivity.
Qed.

Lemma gt_true : forall a b, b < a -> gt a b = true.
Proof.
  intros a b H. unfold gt. destruct (Qle_bool a b) eqn:E; [| reflexivity].
  apply Qle_bool_iff in E. lra.
Qed.

Lemma Forall_repeat : forall (A : Type) (P : A -> Prop) (a : A) (n : nat),
  P a -> Forall P (repeat a n).
Proof.
  intros A P a n H. induction n; cbn; constructor; assumption.
Qed.

(** Rounding is visible in the walk: with the draw 0.75 the sum
    [36.5 + (0.75 * 0.2 - 0.1)] rounds to the binary64 number just below
    36.55, so [toFixed(1)] prints 36.5 where exact arithmetic gives the
    tie 36.55 and 36.6; and five times the binary64 number written [0.6],
    which is below 3, rounds up to 3. *)
Example walk_below_tie :
  finalTemp (walk initialMock (mkDraws (1 # 2) (3 # 4) (1 # 2) (1 # 2)))
  = Num (73 # 2).
Proof. vm_compute. reflexivity. Qed.

Example product_rounds_up :
  Math_floor (fl (fl (6 # 10) * 5)) = 3%Z /\ Math_floor (fl (6 # 10) * 5) = 2%Z.
Proof. split; vm_compute; reflexivity. Qed.

(** Zero, a half and seven eighths are binary64 numbers in [0, 1). *)
Lemma draw_zero : draw 0.
Proof. split; [vm_compute; reflexivity | split; [apply Qle_refl | reflexivity]]. Qed.

Lemma draw_half : draw (1 # 2).
Proof. split; [vm_compute; reflexivity | split; discriminate || reflexivity]. Qed.

Lemma draw_seven_eighths : draw (7 # 8).
Proof. split; [vm_compute; reflexivity | split; discriminate || reflexivity]. Qed.

End Generator.

Lemma upward_valid : validDraws upward.
Proof. repeat split; apply draw_seven_eighths. Qed.

Lemma downward_valid : validDraws downward.
Proof.
  unfold validDraws, downward. cbn [rndHR rndTemp rndGate rndDir].
  repeat split; first [apply draw_zero | apply draw_seven_eighths].
Qed.

(** C5, as stated, fails in two ways.  With the oxygen value at 100, where
    two upward ticks take it, a tick whose gating draw exceeds 0.7 and whose
    direction is upward leaves it at 100: it neither changes by one nor was
    it held by the gate.  And after five downward ticks the sample carries
    the temperature 36, a whole number and no number with one fractional
    digit. *)
Lemma demo_claim_fails :
  (Forall validDraws (repeat upward 2) /\ validDraws upward /\
   mockSpO2 (walks initialMock (repeat upward 2)) = 100%Z /\
   gt (rndGate upward) lit_0_7 = true /\
   ~ oxygenStepsByOne (walks initialMock (repeat upward 2)) upward) /\
  (Forall validDraws (repeat downward 5) /\
   finalTemp (walks initialMock (repeat downward 5)) = int 36 /\
   ~ hasOneFractionalDigit (finalTemp (walks initialMock (repeat downward 5)))).
Proof.
  split.
  - split; [apply Forall_repeat, upward_valid |].
    split; [apply upward_valid |].
    split; [vm_compute; reflexivity |].
    split; [vm_compute; reflexivity |].
    unfold oxygenStepsByOne.
    replace (gt (rndGate upward) lit_0_7) with true by (vm_compute; reflexivity).
    replace (mockSpO2 (walk (walks initialMock (repeat upward 2)) upward))
      with 100%Z by (vm_compute; reflexivity).
    replace (mockSpO2 (walks initialMock (repeat upward 2)))
      with 100%Z by (vm_compute; reflexivity).
    intros [H | H]; discriminate H.
  - split; [apply Forall_repeat, downward_valid |].
    assert (E : finalTemp (walks initialMock (repeat downward 5)) = int 36)
      by (vm_compute; reflexivity).
    split; [exact E |].
    rewrite E. intros (n & Hn & Hmod).
    assert (Hr : Qred (n # 10) = inject_Z 36) by (unfold int in Hn; congruence).
    assert (Hq : n # 10 == 36).
    { rewrite <- (Qred_correct (n # 10)), Hr. reflexivity. }
    unfold Qeq in Hq. cbn in Hq.
    assert (n = 360%Z) by lia. subst n. apply Hmod. reflexivity.
Qed.

(** C5, amended.  Whatever the generator has drawn so far, the sample of
    the next tick has a heart rate between 60 and 110 that differs from
    the one of the tick before by at most 2; as temperature the number
    written with [n] tenths, [n] between 360 and 373 (a whole number when
    [n] is 360 or 370); an oxygen value between 95 and 100 that is held
    when the gating draw does not exceed 0.7 and otherwise goes one up or
    one down, clamped to the range: it then stays where it is exactly when
    it is at 100 and would go up, or at 95 and would go down.  Each of the
    six bounds is attained by some sequence of draws.  The arithmetic is
    that of binary64, each draw a binary64 number in [0, 1). *)
Theorem demo_samples_in_range :
  (forall ds d now s,
     validDraws d ->
     let m := walks initialMock ds in
     exists hr n o,
       newest (data (snd (tick now m d s))) =
         Some (mkDataPoint (formatTime now)
                           (int hr) (Num (Qred (n # 10))) (int o)) /\
       (60 <= hr <= 110)%Z /\ (-2 <= hr - mockHR m <= 2)%Z /\
       (360 <= n <= 373)%Z /\
       (95 <= o <= 100)%Z /\
       (rndGate d <= lit_0_7 -> o = mockSpO2 m) /\
       (lit_0_7 < rndGate d ->
          o = Z.max 95 (Z.min 100 (mockSpO2 m +
                 (if gt (rndDir d) (5 # 10) then 1 else -1)))%Z /\
          (o = (mockSpO2 m + 1)%Z \/ o = (mockSpO2 m - 1)%Z \/
           (o = mockSpO2 m /\
            ((mockSpO2 m = 100%Z /\ 5 # 10 < rndDir d) \/
             (mockSpO2 m = 95%Z /\ rndDir d <= 5 # 10)))))) /\
  (Forall validDraws (repeat downward 8) /\
   In (int 60, int 36, int 95) (emitted initialMock (repeat downward 8))) /\
  (Forall validDraws (repeat upward 18) /\
   In (int 110, Num (373 # 10), int 100) (emitted initialMock (repeat upward 18))).
Proof.
  split; [| split].
  - intros ds d now s Hd m.
    assert (Hm : inRange m) by apply walks_inRange, initialMock_inRange.
    pose proof (walk_inRange d Hm) as (Hhr' & [Hlo Hhi] & Ho').
    destruct Hm as (Hhr & _ & Ho).
    destruct Hd as (HrHR & _ & _ & _).
    destruct (toFixed1_parseFloat Hlo Hhi) as [_ Hparse].
    exists (mockHR (walk m d)), (tenths (mockTemp (walk m d))),
           (mockSpO2 (walk m d)).
    split.
    { unfold tick. cbn [snd]. rewrite <- Hparse. apply updateData_displays. }
    split; [exact Hhr' |]. split.
    { pose proof (changeHR_range HrHR) as Hc.
      unfold walk. cbn [mockHR]. lia. }
    split; [apply tenths_range; assumption |].
    split; [exact Ho' |]. split.
    + intros Hgate. unfold walk. cbn [mockSpO2].
      rewrite (gt_false Hgate). reflexivity.
    + intros Hgate. unfold walk. cbn [mockSpO2].
      rewrite (gt_true Hgate). split; [reflexivity |].
      destruct (gt (rndDir d) (5 # 10)) eqn:Edir.
      * apply gt_iff in Edir.
        destruct (Z.eq_dec (mockSpO2 m) 100) as [E | E].
        -- right; right. split; [lia | left; split; [exact E | exact Edir]].
        -- left. lia.
      * apply gt_false_iff in Edir.
        destruct (Z.eq_dec (mockSpO2 m) 95) as [E | E].
        -- right; right. split; [lia | right; split; [exact E | exact Edir]].
        -- right; left. lia.
  - split; [apply Forall_repeat, downward_valid |].
    vm_compute. repeat (first [left; reflexivity | right]).
  - split; [apply Forall_repeat, upward_valid |].
    vm_compute. repeat (first [left; reflexivity | right]).
Qed.

(** C5, amended, at the first tick of a generator that draws 0.5 four
    times: the sample is {75, 36.5, 98}. *)
Lemma demo_samples_in_range_witness :
  validDraws (mkDraws (1 # 2) (1 # 2) (1 # 2) (1 # 2)) /\
  exists hr n o,
    newest (data (snd (tick noon (walks initialMock [])
                            (mkDraws (1 # 2) (1 # 2) (1 # 2) (1 # 2))
                            initialState))) =
      Some (mkDataPoint (formatTime noon)
                        (int hr) (Num (Qred (n # 10))) (int o)) /\
    (60 <= hr <= 110)%Z /\ (360 <= n <= 373)%Z /\ (95 <= o <= 100)%Z.
Proof.
  assert (Hd : validDraws (mkDraws (1 # 2) (1 # 2) (1 # 2) (1 # 2))).
  { repeat split; apply draw_half. }
  split; [exact Hd |].
  destruct (proj1 demo_samples_in_range [] _ noon initialState Hd)
    as (hr & n & o & Hs & Hhr & _ & Hn & Ho & _).
  exists hr, n, o. repeat split; first [exact Hs | apply Hhr | apply Hn | apply Ho].
Defined.

(* ================================================================== *)
(** * Failing connection attempts                                      *)
(* ================================================================== *)

(** C7, as stated, fails when the GATT connection is refused after the
    user picked a device: the log does not return to its value before the
    attempt, it has two more lines. *)
Lemma connect_failure_not_restored :
  ~ restoresOnFailure initialState refused afterNoon initialWorld.
Proof.
  intros H.
  destruct (H (mkError (str "NetworkError") (str "Connection failed")) eq_refl)
    as (_ & _ & Hlogs & _).
  discriminate Hlogs.
Qed.

(** C7, amended.  When the attempt fails, the message of the failure is
    shown; [isConnected], [isDemoMode], the window, the three displays, the
    subscription and the interval are as before the attempt; the log is not
    rolled back, it holds in addition the progress lines written before the
    failure. *)
Theorem connect_failure_effects : forall render bt clock w e,
  fails render bt clock w e ->
  let w' := snd (connectBluetooth render bt clock w) in
  errorMsg (ui w') = Some (errorText e) /\
  isConnected (ui w') = isConnected (ui w) /\
  isDemoMode (ui w') = isDemoMode (ui w) /\
  data (ui w') = data (ui w) /\
  currentHR (ui w') = currentHR (ui w) /\
  currentTemp (ui w') = currentTemp (ui w) /\
  currentSpO2 (ui w') = currentSpO2 (ui w) /\
  listener w' = listener w /\
  timer w' = timer w /\
  logs (ui w') = logged (progress bt clock) (logs (ui w)).
Proof.
  intros render bt clock w e.
  unfold fails, connectBluetooth, attempt, errorText.
  attempt_cases bt; cbn; intros Hfail; try discriminate Hfail;
    injection Hfail as <-; catch_cases; repeat split.
Qed.

(** C7, amended, at the refused GATT connection on a fresh page. *)
Lemma connect_failure_effects_witness :
  fails initialState refused afterNoon initialWorld
        (mkError (str "NetworkError") (str "Connection failed")) /\
  errorMsg (ui (snd (connectBluetooth initialState refused afterNoon initialWorld)))
    = Some (msgFailed ++ str "Connection failed") /\
  isConnected (ui (snd (connectBluetooth initialState refused afterNoon initialWorld)))
    = false.
Proof.
  split; [reflexivity |].
  pose proof (@connect_failure_effects initialState refused afterNoon
                initialWorld
                (mkError (str "NetworkError") (str "Connection failed"))
                eq_refl) as (Herr & Hconn & _).
  split; [exact Herr | exact Hconn].
Defined.

(** A failing attempt does not clear [device] either: it holds the picked
    device when the failure came after the user picked one. *)
Lemma connect_failure_device : forall render bt clock w e,
  fails render bt clock w e ->
  device (ui (snd (connectBluetooth render bt clock w)))
    = selected bt (device (ui w)).
Proof.
  intros render bt clock w e.
  unfold fails, connectBluetooth, attempt.
  attempt_cases bt; cbn; intros Hfail; try discriminate Hfail;
    catch_cases; reflexivity.
Qed.

(* ================================================================== *)
(** * Every page an execution can reach                                *)
(* ================================================================== *)

Section Reachability.

Lemma sameReadout_refl : forall s, sameReadout s s.
Proof. intros s. repeat split. Qed.

Lemma sameReadout_trans : forall s1 s2 s3,
  sameReadout s1 s2 -> sameReadout s2 s3 -> sameReadout s1 s3.
Proof.
  intros s1 s2 s3 (Hd & Hh & Ht & Ho) (Hd' & Hh' & Ht' & Ho').
  repeat split; congruence.
Qed.

(** The window and the displays are all the first two parts of the
    invariant look at. *)
Lemma readout_invariant : forall s s',
  sameReadout s s' ->
  (List.length (data s) <= MAX_DATA_POINTS)%nat /\
  (data s = [] \/ displaysNewest s) ->
  (List.length (data s') <= MAX_DATA_POINTS)%nat /\
  (data s' = [] \/ displaysNewest s').
Proof.
  intros s s' (Hd & Hh & Ht & Ho) [Hlen Hdisp].
  rewrite Hd. split; [exact Hlen |].
  destruct Hdisp as [Hnil | (p & Hp & H1 & H2 & H3)]; [left; exact Hnil |].
  right. exists p. unfold displaysNewest. rewrite Hd, Hh, Ht, Ho.
  repeat split; assumption.
Qed.

Lemma updateData_invariant : forall now hr temp spo2 s,
  (List.length (data (updateData now hr temp spo2 s)) <= MAX_DATA_POINTS)%nat /\
  (data (updateData now hr temp spo2 s) = [] \/
   displaysNewest (updateData now hr temp spo2 s)).
Proof.
  intros now hr temp spo2 s. split.
  - unfold updateData. cbn [data setData].
    rewrite evict_keep, keep_length. lia.
  - right. apply updateData_displaysNewest.
Qed.

(** A connection attempt, failed or not, leaves the window, the displays
    and the interval alone, and subscribes at most the handler of the
    render it was started from. *)
Lemma connectBluetooth_frame : forall render bt clock w,
  let w' := snd (connectBluetooth render bt clock w) in
  sameReadout (ui w) (ui w') /\
  timer w' = timer w /\
  (listener w' = listener w \/
   listener w' = Some (handleCharacteristicValueChanged render)).
Proof.
  intros render bt clock w.
  unfold connectBluetooth, attempt.
  attempt_cases bt; cbn; catch_cases;
    (split; [repeat split |]; split; [reflexivity |]);
    first [left; reflexivity | right; reflexivity].
Qed.

Lemma demoEffect_frame : forall now before w,
  sameReadout (ui w) (ui (demoEffect now before w)) /\
  listener (demoEffect now before w) = listener w /\
  (timer (demoEffect now before w) = timer w \/
   timer (demoEffect now before w) = Some initialMock \/
   timer (demoEffect now before w) = None).
Proof.
  intros now before w. unfold demoEffect.
  destruct (Bool.eqb before (isDemoMode (ui w))).
  - split; [apply sameReadout_refl |]. split; [reflexivity | left; reflexivity].
  - destruct (isDemoMode (ui w)); cbn.
    + split; [repeat split |]. split; [reflexivity |].
      right; left; reflexivity.
    + split; [apply sameReadout_refl |]. split; [reflexivity |].
      right; right; reflexivity.
Qed.

Lemma timer_cases_inRange : forall w w',
  (timer w' = timer w \/ timer w' = Some initialMock \/ timer w' = None) ->
  (forall m, timer w = Some m -> inRange m) ->
  forall m, timer w' = Some m -> inRange m.
Proof.
  intros w w' [H | [H | H]] Hw m Hm; rewrite H in Hm.
  - apply Hw, Hm.
  - injection Hm as <-. apply initialMock_inRange.
  - discriminate.
Qed.

Lemma initial_invariant : invariant initialWorld.
Proof.
  unfold invariant, initialWorld. cbn.
  split; [unfold MAX_DATA_POINTS; lia |].
  split; [left; reflexivity |].
  split; intros x Hx; discriminate Hx.
Qed.

(** Every event preserves the invariant. *)
Lemma dispatch_invariant : forall w ev,
  invariant w -> invariant (dispatch w ev).
Proof.
  intros w ev Hinv. pose proof Hinv as (Hlen & Hdisp & Hlis & Htim).
  assert (Hdown : forall now, invariant (linkDown now w)).
  { intros now. unfold linkDown.
    destruct (listener w) eqn:El; [| exact Hinv].
    assert (Hr : sameReadout (ui w)
                   (ui (setListener None (onUi (onDisconnected now) w))))
      by (repeat split).
    destruct (readout_invariant Hr (conj Hlen Hdisp)) as [Hlen2 Hdisp2].
    split; [exact Hlen2 |]. split; [exact Hdisp2 |].
    split; [intros h Hh; discriminate Hh | exact Htim]. }
  destruct ev as [bt clock | now | now | now | now decoded | now d];
    cbn [dispatch].
  - (* connect *)
    destruct (isConnected (ui w) || isDemoMode (ui w)); [exact Hinv |].
    pose proof (connectBluetooth_frame (ui w) bt clock w) as (Hr & Ht & Hl).
    set (w1 := snd (connectBluetooth (ui w) bt clock w)) in *.
    pose proof (demoEffect_frame (clock 4%nat) (isDemoMode (ui w)) w1)
      as (Hr2 & Hl2 & Ht2).
    set (w2 := demoEffect (clock 4%nat) (isDemoMode (ui w)) w1) in *.
    destruct (readout_invariant (sameReadout_trans Hr Hr2) (conj Hlen Hdisp))
      as [Hlen2 Hdisp2].
    split; [exact Hlen2 |]. split; [exact Hdisp2 |]. split.
    + intros h Hh. rewrite Hl2 in Hh. destruct Hl as [Hl | Hl]; rewrite Hl in Hh.
      * apply Hlis, Hh.
      * injection Hh as <-. eexists. reflexivity.
    + apply (timer_cases_inRange w1 w2 Ht2).
      intros m Hm. rewrite Ht in Hm. apply Htim, Hm.
  - (* disconnect *)
    destruct (isConnected (ui w)); [| exact Hinv].
    unfold disconnectBluetooth.
    destruct (device (ui w)); [apply Hdown | exact Hinv].
  - (* link lost *)
    apply Hdown.
  - (* demo toggle *)
    set (w1 := onUi (setIsDemoMode (negb (isDemoMode (ui w)))) w).
    pose proof (demoEffect_frame now (isDemoMode (ui w)) w1) as (Hr2 & Hl2 & Ht2).
    assert (Hr : sameReadout (ui w) (ui w1)) by (repeat split).
    destruct (readout_invariant (sameReadout_trans Hr Hr2) (conj Hlen Hdisp))
      as [Hlen2 Hdisp2].
    split; [exact Hlen2 |]. split; [exact Hdisp2 |]. split.
    + intros h Hh. rewrite Hl2 in Hh. apply Hlis, Hh.
    + apply (timer_cases_inRange w1 _ Ht2). exact Htim.
  - (* notification *)
    destruct (listener w) as [handler |] eqn:El; [| exact Hinv].
    destruct (Hlis handler eq_refl) as [render ->].
    unfold invariant. cbn [ui listener timer onUi].
    rewrite handler_cases.
    split; [| split; [| split; [| exact Htim]]];
      [| | intros h Hh; rewrite El in Hh; injection Hh as <-;
           eexists; reflexivity];
      destruct (hrPattern decoded), (tempPattern decoded), (spo2Pattern decoded);
      first [exact Hlen | exact Hdisp | apply updateData_invariant].
  - (* interval *)
    destruct (timer w) as [m |] eqn:Et; [| exact Hinv].
    unfold tick, invariant. cbn [ui listener timer].
    split; [apply updateData_invariant |].
    split; [apply updateData_invariant |]. split; [exact Hlis |].
    intros m' [= <-]. apply walk_inRange, Htim. reflexivity.
Qed.

(** The invariant holds after every sequence of events on a fresh page. *)
Lemma run_invariant : forall evs w, invariant w -> invariant (run w evs).
Proof.
  induction evs as [| ev evs IH]; intros w Hw; [exact Hw |].
  unfold run in *. cbn [fold_left]. apply IH, dispatch_invariant, Hw.
Qed.

Lemma reachable_invariant : forall w, reachable w -> invariant w.
Proof.
  intros w [evs ->]. apply run_invariant, initial_invariant.
Qed.

End Reachability.

(* ================================================================== *)
(** * Housekeeping of the page                                         *)
(* ================================================================== *)

Lemma length_addLog : forall now msg s,
  (List.length (logs (addLog now msg s)) <= 5)%nat.
Proof.
  intros now msg s. unfold addLog. cbn [logs setLogs List.length].
  rewrite length_firstn. lia.
Qed.

Lemma updateData_nonempty : forall now hr temp spo2 s,
  data (updateData now hr temp spo2 s) <> [].
Proof.
  intros now hr temp spo2 s H.
  pose proof (updateData_displays now hr temp spo2 s) as [Hn _].
  rewrite H in Hn. discriminate Hn.
Qed.

(** What a connection attempt does to the flags, the device, the listener
    and the log: either it fails and flags and listener stay, or it goes
    through, the page is connected to a device and out of demo mode, and
    the handler of the render is subscribed. *)
Lemma connectBluetooth_outcome : forall render bt clock w,
  let w' := snd (connectBluetooth render bt clock w) in
  ((List.length (logs (ui w)) <= 5)%nat ->
   (List.length (logs (ui w')) <= 5)%nat) /\
  ((isConnected (ui w') = isConnected (ui w) /\
    isDemoMode (ui w') = isDemoMode (ui w) /\
    listener w' = listener w) \/
   (isConnected (ui w') = true /\
    isDemoMode (ui w') = false /\
    listener w' = Some (handleCharacteristicValueChanged render) /\
    device (ui w') <> None)).
Proof.
  intros render bt clock w.
  unfold connectBluetooth, attempt.
  attempt_cases bt; cbn; catch_cases;
    (split;
     [intros Hlen; first [exact Hlen | destruct (logs (ui w)) as [| ? [| ? [| ? [| ? ?]]]]; cbn; lia] |]);
    first [left; repeat split; reflexivity
          | right; repeat split; discriminate].
Qed.

Lemma initial_housekeeping : housekeeping initialWorld.
Proof.
  unfold housekeeping, initialWorld. cbn.
  split; [lia |]. split; [reflexivity |]. split; [reflexivity |].
  split; [discriminate |]. intros _. repeat split.
Qed.

(** Every event preserves the housekeeping facts. *)
Lemma dispatch_housekeeping : forall w ev,
  invariant w -> housekeeping w -> housekeeping (dispatch w ev).
Proof.
  intros w ev (_ & _ & Hlis & _) Hk.
  pose proof Hk as (Hlog & Hdemo & Hconn & Hdev & Hzero).
  assert (Hdown : forall now, housekeeping (linkDown now w)).
  { intros now. unfold linkDown.
    destruct (listener w) eqn:El; [| exact Hk].
    unfold housekeeping.
    split; [exact (length_addLog now msgDisconnected (ui w)) |]. cbn.
    split; [exact Hdemo |]. split; [reflexivity |].
    split; [discriminate |]. exact Hzero. }
  destruct ev as [bt clock | now | now | now | now decoded | now d];
    cbn [dispatch].
  - (* connect *)
    destruct (isConnected (ui w)) eqn:Ec; cbn [orb]; [exact Hk |].
    destruct (isDemoMode (ui w)) eqn:Ed; [exact Hk |].
    pose proof (connectBluetooth_outcome (ui w) bt clock w) as [Hl Hout].
    pose proof (connectBluetooth_frame (ui w) bt clock w)
      as ((Hd1 & Hh1 & Ht1 & Ho1) & Htm & _).
    set (w1 := snd (connectBluetooth (ui w) bt clock w)) in *.
    assert (Hnodemo : isDemoMode (ui w1) = false).
    { destruct Hout as [(_ & H & _) | (_ & H & _)];
        [rewrite H; exact Ed | exact H]. }
    unfold demoEffect. rewrite Hnodemo. cbn [Bool.eqb].
    unfold housekeeping.
    split; [apply Hl, Hlog |].
    split; [rewrite Hnodemo, Htm; exact Hdemo |].
    split.
    { destruct Hout as [(H1 & _ & H3) | (H1 & _ & H3 & _)];
        rewrite H1, H3; [rewrite Ec; exact Hconn | reflexivity]. }
    split.
    { destruct Hout as [(H1 & _) | (_ & _ & _ & H4)];
        [rewrite H1, Ec; discriminate | intros _; exact H4]. }
    rewrite Hd1, Hh1, Ht1, Ho1. exact Hzero.
  - (* disconnect *)
    destruct (isConnected (ui w)); [| exact Hk].
    unfold disconnectBluetooth.
    destruct (device (ui w)); [apply Hdown | exact Hk].
  - (* link lost *)
    apply Hdown.
  - (* demo toggle *)
    unfold demoEffect. cbn [ui onUi isDemoMode setIsDemoMode].
    rewrite Bool.eqb_negb2.
    destruct (isDemoMode (ui w)); cbn [negb]; unfold housekeeping.
    + cbn. split; [exact Hlog |]. split; [reflexivity |].
      split; [exact Hconn |]. split; [exact Hdev | exact Hzero].
    + split; [exact (length_addLog now msgDemo _) |]. cbn.
      split; [reflexivity |].
      split; [exact Hconn |]. split; [exact Hdev | exact Hzero].
  - (* notification *)
    destruct (listener w) as [handler |] eqn:El; [| exact Hk].
    destruct (Hlis handler eq_refl) as [render ->].
    unfold housekeeping. cbn [ui listener timer onUi].
    rewrite handler_cases, El.
    destruct (hrPattern decoded), (tempPattern decoded), (spo2Pattern decoded);
      try exact (conj Hlog (conj Hdemo (conj Hconn (conj Hdev Hzero))));
      (split; [exact Hlog |]; split; [exact Hdemo |];
       split; [exact Hconn |]; split; [exact Hdev |];
       intros Hnil; now apply updateData_nonempty in Hnil).
  - (* interval *)
    destruct (timer w) as [m |] eqn:Et; [| exact Hk].
    unfold tick, housekeeping. cbn [ui listener timer].
    split; [exact Hlog |]. split; [exact Hdemo |].
    split; [exact Hconn |]. split; [exact Hdev |].
    intros Hnil. now apply updateData_nonempty in Hnil.
Qed.

(** Both sets of facts hold after every sequence of events. *)
Lemma run_page_facts : forall evs w,
  invariant w -> housekeeping w ->
  invariant (run w evs) /\ housekeeping (run w evs).
Proof.
  induction evs as [| ev evs IH]; intros w Hi Hk; [split; assumption |].
  unfold run in *. cbn [fold_left].
  apply IH; [apply dispatch_invariant, Hi | apply dispatch_housekeeping; assumption].
Qed.

Lemma page_facts : forall evs,
  invariant (run initialWorld evs) /\ housekeeping (run initialWorld evs).
Proof.
  intros evs. apply run_page_facts;
    [apply initial_invariant | apply initial_housekeeping].
Qed.

(** X1.  After any sequence of events the log holds at most five lines;
    [addLog] puts the new line first, keeps the older ones in order and,
    when the log is full, drops the oldest. *)
Theorem log_at_most_five : forall evs now msg,
  let s := ui (run initialWorld evs) in
  (List.length (logs s) <= 5)%nat /\
  logs (addLog now msg s) =
    logLine now msg ::
      (if (List.length (logs s) =? 5)%nat then removelast (logs s) else logs s).
Proof.
  intros evs now msg s.
  destruct (page_facts evs) as [_ (Hlog & _)]. fold s in Hlog.
  split; [exact Hlog |].
  unfold addLog. cbn [logs setLogs]. f_equal.
  destruct (logs s) as [| a [| b [| c [| d [| e [| f l]]]]]];
    cbn in Hlog |- *; try reflexivity. lia.
Qed.

(** X2.  The window after any series of appends on a fresh page is the
    newest 60 of the samples that went in, in the order they went in:
    nothing is reordered, altered or dropped except from the old end. *)
Theorem window_is_newest_suffix : forall rs : list Reading,
  data (appendAll initialState rs) =
    skipn (List.length rs - 60) (map sampleOf rs).
Proof.
  intros rs.
  rewrite data_appendAll by (cbn; unfold MAX_DATA_POINTS; lia).
  cbn [data initialState app]. unfold keep.
  rewrite length_map. reflexivity.
Qed.

(** X3.  After any sequence of events (clicks, notifications, ticks, link
    losses) the window holds at most 60 samples; the three displays show
    the newest sample of the window, and 0 while the window is empty. *)
Theorem every_page_shows_newest : forall evs,
  let s := ui (run initialWorld evs) in
  (List.length (data s) <= 60)%nat /\
  match newest (data s) with
  | Some p =>
      currentHR s = heartRate p /\ currentTemp s = temperature p /\
      currentSpO2 s = oxygen p
  | None =>
      data s = [] /\
      currentHR s = int 0 /\ currentTemp s = int 0 /\ currentSpO2 s = int 0
  end.
Proof.
  intros evs s.
  destruct (page_facts evs) as [(Hlen & Hdisp & _) (_ & _ & _ & _ & Hzero)].
  fold s in Hlen, Hdisp, Hzero.
  split; [exact Hlen |].
  destruct Hdisp as [Hnil | (p & Hp & H)].
  - rewrite Hnil. cbn. split; [reflexivity | apply Hzero, Hnil].
  - rewrite Hp. exact H.
Qed.

(** X4.  No event clears, shortens or rewrites the window: after an event
    on any page an execution can be in, the window is what it was, or what
    it was with one sample appended and the oldest evicted when over
    capacity.  Disconnecting and leaving demo mode keep the chart. *)
Theorem window_only_appended : forall evs ev,
  let w := run initialWorld evs in
  data (ui (dispatch w ev)) = data (ui w) \/
  exists p, data (ui (dispatch w ev)) = evict (data (ui w) ++ [p]).
Proof.
  intros evs ev w.
  destruct (page_facts evs) as [(_ & _ & Hlis & _) _]. fold w in Hlis.
  destruct ev as [bt clock | now | now | now | now decoded | now d];
    cbn [dispatch].
  - left. destruct (isConnected (ui w) || isDemoMode (ui w)); [reflexivity |].
    pose proof (connectBluetooth_frame (ui w) bt clock w) as ((Hd & _) & _).
    pose proof (demoEffect_frame (clock 4%nat) (isDemoMode (ui w))
                  (snd (connectBluetooth (ui w) bt clock w))) as ((Hd2 & _) & _).
    rewrite Hd2. exact Hd.
  - left. destruct (isConnected (ui w)); [| reflexivity].
    unfold disconnectBluetooth, linkDown.
    destruct (device (ui w)), (listener w); reflexivity.
  - left. unfold linkDown. destruct (listener w); reflexivity.
  - left.
    pose proof (demoEffect_frame now (isDemoMode (ui w))
                  (onUi (setIsDemoMode (negb (isDemoMode (ui w)))) w))
      as ((Hd2 & _) & _).
    rewrite Hd2. reflexivity.
  - destruct (listener w) as [handler |] eqn:El; [| left; reflexivity].
    destruct (Hlis handler eq_refl) as [render ->].
    cbn [ui onUi]. rewrite handler_cases.
    destruct (hrPattern decoded), (tempPattern decoded), (spo2Pattern decoded);
      first [left; reflexivity | right; eexists; reflexivity].
  - destruct (timer w) as [m |]; [| left; reflexivity].
    right. eexists. reflexivity.
Qed.

(** X5.  On every page an execution can be in, the interval of the
    generator is set exactly when [isDemoMode] is; the demo button starts
    it from the locals 75 / 36.5 / 98 when demo mode was off and clears it
    when demo mode was on. *)
Theorem interval_follows_demo_flag : forall evs now,
  let w := run initialWorld evs in
  isDemoMode (ui w) = match timer w with Some _ => true | None => false end /\
  isDemoMode (ui (dispatch w (ClickDemo now))) = negb (isDemoMode (ui w)) /\
  timer (dispatch w (ClickDemo now)) =
    (if isDemoMode (ui w) then None else Some initialMock).
Proof.
  intros evs now w.
  destruct (page_facts evs) as [_ (_ & Hdemo & _)]. fold w in Hdemo.
  split; [exact Hdemo |].
  cbn [dispatch]. unfold demoEffect. cbn [ui onUi isDemoMode setIsDemoMode].
  rewrite Bool.eqb_negb2.
  destruct (isDemoMode (ui w)); cbn; split; reflexivity.
Qed.

Lemma last_cons_default : forall (A : Type) (l : list A) (a d : A),
  last (a :: l) d = last l a.
Proof.
  intros A l. induction l as [| b l IH]; intros a d; [reflexivity |].
  change (last (a :: b :: l) d) with (last (b :: l) d).
  rewrite (IH b d), (IH b a). reflexivity.
Qed.

(** X6.  [onDisconnected], run once or several times in a row, leaves
    [isConnected] false and [device] empty, leaves the window, the
    displays, the demo flag and the error message as they were, and puts
    its line for the last run first in a log of at most five lines. *)
Theorem onDisconnected_effects : forall nows now s,
  let s' := disconnections (now :: nows) s in
  isConnected s' = false /\ device s' = None /\ sameReadout s s' /\
  isDemoMode s' = isDemoMode s /\ errorMsg s' = errorMsg s /\
  (List.length (logs s') <= 5)%nat /\
  exists older, logs s' = logLine (last nows now) msgDisconnected :: older.
Proof.
  induction nows as [| next nows IH]; intros now s.
  - cbv zeta. repeat split.
    + exact (length_addLog now msgDisconnected s).
    + eexists. reflexivity.
  - change (disconnections (now :: next :: nows) s)
      with (disconnections (next :: nows) (onDisconnected now s)).
    destruct (IH next (onDisconnected now s))
      as (Hc & Hd & (H1 & H2 & H3 & H4) & Hdemo & Herr & Hlen & Hlog).
    cbv zeta. rewrite last_cons_default.
    split; [exact Hc |]. split; [exact Hd |].
    split; [repeat split; assumption |].
    split; [exact Hdemo |]. split; [exact Herr |].
    split; [exact Hlen | exact Hlog].
Qed.

(* ================================================================== *)
(** * Time labels                                                      *)
(* ================================================================== *)

(** Two-digit padding of every number below 100 gives two digits that read
    back as the number. *)
Lemma padStart_readTwo : forall n, (n < 100)%nat ->
  exists a b, padStart 2 48%N (toString n) = [a; b] /\ readTwo a b = Some n.
Proof.
  assert (Hall : forallb
            (fun n => match padStart 2 48%N (toString n) with
                      | [a; b] => match readTwo a b with
                                  | Some k => (k =? n)%nat
                                  | None => false
                                  end
                      | _ => false
                      end) (seq 0 100) = true) by (vm_compute; reflexivity).
  rewrite forallb_forall in Hall.
  intros n Hn. specialize (Hall n). rewrite in_seq in Hall.
  specialize (Hall (conj (Nat.le_0_l n) Hn)).
  destruct (padStart 2 48%N (toString n)) as [| a [| b [| c l]]];
    try discriminate Hall.
  exists a, b. split; [reflexivity |].
  destruct (readTwo a b) as [k |]; [| discriminate Hall].
  apply Nat.eqb_eq in Hall. now subst k.
Qed.

(** X7.  For a clock value with hours below 24 and minutes and seconds
    below 60, [formatTime] yields the eight characters [hh:mm:ss], from
    which hours, minutes and seconds read back: different times of a day
    get different labels. *)
Theorem formatTime_reads_back : forall date,
  validClock date ->
  List.length (formatTime date) = 8%nat /\
  readTime (formatTime date) =
    Some (getHours date, getMinutes date, getSeconds date).
Proof.
  intros date (Hh & Hm & Hs).
  destruct (@padStart_readTwo (getHours date) ltac:(lia))
    as (a & b & Eh & Rh).
  destruct (@padStart_readTwo (getMinutes date) ltac:(lia))
    as (c & d & Em & Rm).
  destruct (@padStart_readTwo (getSeconds date) ltac:(lia))
    as (e & f & Es & Rs).
  unfold formatTime. rewrite Eh, Em, Es. cbn [app str map list_ascii_of_string].
  split; [reflexivity |].
  change (N_of_ascii ":"%char) with 58%N.
  unfold readTime. rewrite Rh, Rm, Rs. reflexivity.
Qed.

(** X7 at 09:05:07. *)
Lemma formatTime_reads_back_witness :
  validClock (mkDate 9 5 7 (str "9:05:07 AM")) /\
  readTime (formatTime (mkDate 9 5 7 (str "9:05:07 AM"))) = Some (9, 5, 7)%nat.
Proof.
  assert (H : validClock (mkDate 9 5 7 (str "9:05:07 AM"))).
  { unfold validClock. cbn. lia. }
  split; [exact H |].
  exact (proj2 (formatTime_reads_back H)).
Defined.

(* ================================================================== *)
(** * Outcomes of a connection attempt                                 *)
(* ================================================================== *)

(** [includes] is the substring test. *)
Lemma includes_contains : forall p s,
  includes s p = true <-> contains s p.
Proof.
  intros p s. unfold contains. split.
  - induction s as [| c s IH]; cbn [includes].
    + destruct (stripPrefix p []) as [r |] eqn:E; [| discriminate].
      intros _. apply stripPrefix_Some in E. exists [], r. exact E.
    + destruct (stripPrefix p (c :: s)) as [r |] eqn:E.
      * intros _. apply stripPrefix_Some in E. exists [], r. exact E.
      * intros H. destruct (IH H) as (pre & post & ->).
        exists (c :: pre), post. reflexivity.
  - intros (pre & post & ->). induction pre as [| c pre IH].
    + cbn [app]. destruct (p ++ post) eqn:E; cbn [includes];
        rewrite <- E, stripPrefix_app; reflexivity.
    + cbn [app includes].
      destruct (stripPrefix p (c :: pre ++ p ++ post)); [reflexivity | exact IH].
Qed.

(** The message a failing attempt shows. *)
Lemma connect_failure_message : forall render bt clock w e,
  fails render bt clock w e ->
  errorMsg (ui (snd (connectBluetooth render bt clock w))) =
    Some (if includes (errorToString e) (str "permissions policy")
          then msgPermission else msgFailed ++ message e).
Proof.
  intros render bt clock w e.
  unfold fails, connectBluetooth, attempt.
  attempt_cases bt; cbn; intros Hfail; try discriminate Hfail;
    injection Hfail as <-; catch_cases; reflexivity.
Qed.

(** X8.  A failing attempt shows the permissions text exactly when the
    text of the error contains [permissions policy]; every other failure
    shows the connection-failed text followed by the message of the
    error. *)
Theorem permission_text_iff : forall render bt clock w e,
  fails render bt clock w e ->
  let shown := errorMsg (ui (snd (connectBluetooth render bt clock w))) in
  (shown = Some msgPermission <->
   contains (errorToString e) (str "permissions policy")) /\
  (shown = Some (msgFailed ++ message e) <->
   ~ contains (errorToString e) (str "permissions policy")).
Proof.
  intros render bt clock w e Hfail shown.
  unfold shown. rewrite (connect_failure_message Hfail).
  rewrite <- includes_contains.
  destruct (includes (errorToString e) (str "permissions policy"));
    split; split; intros H;
    first [reflexivity | discriminate H | now contradiction H
          | intros H'; discriminate H'].
Qed.

(** X8 at an error raised by the permissions policy of a frame. *)
Lemma permission_text_iff_witness :
  fails initialState blocked afterNoon initialWorld policyError /\
  errorMsg (ui (snd (connectBluetooth initialState blocked afterNoon
                       initialWorld))) = Some msgPermission.
Proof.
  split; [reflexivity |].
  apply (proj1 (@permission_text_iff initialState blocked afterNoon
                  initialWorld policyError eq_refl)).
  apply includes_contains. reflexivity.
Defined.

(** X9.  When every step of pairing goes through, the page ends connected
    to the picked device and out of demo mode, an earlier error message is
    gone, the handler of the render that started the attempt is subscribed,
    window and displays are untouched, and the log starts with the four
    progress lines, newest first, followed by at most one older line. *)
Theorem connect_success_effects : forall render d clock w,
  let w' := snd (connectBluetooth render (established d) clock w) in
  fst (connectBluetooth render (established d) clock w) = inr tt /\
  isConnected (ui w') = true /\
  isDemoMode (ui w') = false /\
  device (ui w') = Some d /\
  errorMsg (ui w') = None /\
  listener w' = Some (handleCharacteristicValueChanged render) /\
  timer w' = timer w /\
  sameReadout (ui w) (ui w') /\
  logs (ui w') =
    [logLine (clock 3%nat) msgListening;
     logLine (clock 2%nat) msgConnected;
     logLine (clock 1%nat) (msgDevice ++ name d);
     logLine (clock 0%nat) msgSearching] ++ firstn 1 (logs (ui w)).
Proof.
  intros render d clock w w'. unfold w', established.
  repeat split.
  unfold connectBluetooth, attempt. cbn.
  destruct (logs (ui w)) as [| a [| b [| c [| e l]]]]; reflexivity.
Qed.

(** X10.  In a browser without Web Bluetooth the attempt stops before
    anything else happens: the only change to the page is the error
    message, the connection-failed text followed by the unsupported text;
    nothing is logged and no device is asked for. *)
Theorem unsupported_browser_only_reports :
  forall render rd gc gs gch sn clock w,
  connectBluetooth render (mkBluetooth false rd gc gs gch sn) clock w =
    (inr tt, onUi (setErrorMsg (Some (msgFailed ++ msgUnsupported))) w).
Proof.
  intros render rd gc gs gch sn clock [u l t].
  unfold connectBluetooth, attempt. cbn. reflexivity.
Qed.

(* ================================================================== *)
(** * What the handler reads                                           *)
(* ================================================================== *)

Lemma takeWhile_all_id : forall p s, forallb p s = true -> takeWhile p s = s.
Proof.
  intros p s H. rewrite <- (app_nil_r s) at 1.
  now apply takeWhile_run.
Qed.

Lemma fold_decimal_nonneg : forall ds acc,
  (0 <= acc)%Z ->
  (0 <= fold_left (fun a c => 10 * a + digitValue c) ds acc)%Z.
Proof.
  induction ds as [| c ds IH]; intros acc Hacc; cbn [fold_left]; [exact Hacc |].
  apply IH. unfold digitValue. lia.
Qed.

Lemma decimalValue_nonneg : forall ds, (0 <= decimalValue ds)%Z.
Proof. intros ds. apply fold_decimal_nonneg. lia. Qed.

Lemma parseInt_digitRun : forall g,
  digitRun g -> parseInt g = int (decimalValue g).
Proof.
  intros g [Hne Hall]. unfold parseInt. rewrite (takeWhile_all_id _ _ Hall).
  destruct g; [contradiction | reflexivity].
Qed.

(** What a pattern captures is a non-empty run of its class. *)
Lemma capture_run : forall lit cls s g,
  regexCapture lit cls s = Some g -> g <> [] /\ forallb cls g = true.
Proof.
  intros lit cls s g H. apply regexCapture_Some in H.
  destruct H as (i & (rest & _ & Hne & Hall & _) & _). split; assumption.
Qed.

Lemma fold_decimal_bound : forall ds acc,
  forallb isDigit ds = true -> (0 <= acc)%Z ->
  (fold_left (fun a c => 10 * a + digitValue c) ds acc + 1
   <= (acc + 1) * 10 ^ Z.of_nat (List.length ds))%Z.
Proof.
  induction ds as [| c ds IH]; intros acc Hall Hacc.
  - cbn [fold_left List.length]. change (10 ^ Z.of_nat 0)%Z with 1%Z. lia.
  - cbn [forallb] in Hall. apply andb_prop in Hall. destruct Hall as [Hc Hall].
    assert (Hd : (0 <= digitValue c <= 9)%Z).
    { unfold isDigit in Hc. apply andb_prop in Hc. destruct Hc as [Hlo Hhi].
      apply N.leb_le in Hlo, Hhi. unfold digitValue. lia. }
    cbn [fold_left List.length]. rewrite Nat2Z.inj_succ, Z.pow_succ_r by lia.
    specialize (IH (10 * acc + digitValue c)%Z Hall ltac:(lia)).
    assert (Hp : (0 < 10 ^ Z.of_nat (List.length ds))%Z)
      by (apply Z.pow_pos_nonneg; lia).
    nia.
Qed.

(** A run of up to 15 digits denotes an integer below [2^53], which
    binary64 holds exactly. *)
Lemma decimalValue_short : forall g,
  forallb isDigit g = true -> (List.length g <= 15)%nat ->
  (decimalValue g < 2 ^ 53)%Z.
Proof.
  intros g Hall Hlen. unfold decimalValue.
  pose proof (@fold_decimal_bound g 0%Z Hall ltac:(lia)) as H.
  assert (Hp : (10 ^ Z.of_nat (List.length g) <= 10 ^ 15)%Z)
    by (apply Z.pow_le_mono_r; lia).
  assert (H15 : (10 ^ 15 < 2 ^ 53)%Z) by reflexivity.
  lia.
Qed.

(** X11.  A heart rate or oxygen field of up to 15 digits never gives
    [NaN]: its capture is a non-empty run of digits, and the sample
    carries the integer the digits denote, which is not negative and below
    [2^53]. *)
Theorem integer_fields_are_numbers : forall render now decoded s,
  let s' := handleCharacteristicValueChanged render now decoded s in
  (forall g, hrPattern decoded = Some g -> (List.length g <= 15)%nat ->
     digitRun g /\ (0 <= decimalValue g < 2 ^ 53)%Z /\
     exists p, newest (data s') = Some p /\
               heartRate p = int (decimalValue g)) /\
  (forall g, spo2Pattern decoded = Some g -> (List.length g <= 15)%nat ->
     digitRun g /\ (0 <= decimalValue g < 2 ^ 53)%Z /\
     exists p, newest (data s') = Some p /\
               oxygen p = int (decimalValue g)).
Proof.
  intros render now decoded s s'. unfold s'. rewrite handler_cases.
  split; intros g Hg Hlen; pose proof (capture_run _ _ _ Hg) as Hrun;
    (split; [exact Hrun |]);
    (split; [split; [apply decimalValue_nonneg
                    | apply decimalValue_short; [apply Hrun | exact Hlen]] |]);
    rewrite Hg;
    destruct (hrPattern decoded), (tempPattern decoded), (spo2Pattern decoded);
    try discriminate Hg;
    (eexists; split; [apply updateData_displays |]);
    cbn [heartRate oxygen]; now apply parseInt_digitRun.
Qed.

(** X11 at the payload [H:082]: the heart rate is 82. *)
Lemma integer_fields_are_numbers_witness :
  hrPattern (str "H:082") = Some (str "082") /\
  (List.length (str "082") <= 15)%nat /\
  exists p,
    newest (data (handleCharacteristicValueChanged initialState noon
                    (str "H:082") initialState)) = Some p /\
    heartRate p = int 82.
Proof.
  assert (Hlen : (List.length (str "082") <= 15)%nat) by (cbn; lia).
  split; [reflexivity |]. split; [exact Hlen |].
  exact (proj2 (proj2 (proj1 (integer_fields_are_numbers initialState noon
                                (str "H:082") initialState)
                         (str "082") eq_refl Hlen))).
Defined.

Lemma isDigit_stop : isDigit 46%N = false.
Proof. reflexivity. Qed.

Lemma Qred_nonneg : forall (z : Z) (p : positive),
  (0 <= z)%Z -> 0 <= Qred (z # p).
Proof.
  intros z p Hz. rewrite Qred_correct. unfold Qle. cbn [Qnum Qden]. lia.
Qed.

(** [parseFloat] on a text that starts with a digit, or with a full stop,
    and is made of digits and full stops. *)
Lemma parseFloat_run : forall g,
  digitOrStopRun g ->
  (parseFloat g = NaN <->
   exists r, g = 46%N :: r /\ takeWhile isDigit r = []) /\
  (forall q, parseFloat g = Num q -> 0 <= q).
Proof.
  intros g [Hne Hall]. destruct g as [| c g]; [contradiction |].
  cbn [forallb] in Hall. apply andb_prop in Hall. destruct Hall as [Hc _].
  unfold parseFloat. cbn [takeWhile dropWhile].
  destruct (isDigit c) eqn:Ed.
  - (* the text starts with a digit *)
    split.
    + split.
      * destruct (dropWhile isDigit g) as [| x r]; [discriminate |].
        destruct (N.eqb_spec x 46) as [-> | Hx].
        -- cbn [app]. discriminate.
        -- destruct x as [| px]; [discriminate |].
           repeat (destruct px as [px | px |]; try discriminate);
             contradiction.
      * intros (r & [= -> _] & _). rewrite isDigit_stop in Ed. discriminate.
    + intros q.
      assert (Hint : int (decimalValue (c :: takeWhile isDigit g)) = Num q ->
                     0 <= q).
      { intros [= <-]. unfold inject_Z, Qle. cbn [Qnum Qden].
        pose proof (decimalValue_nonneg (c :: takeWhile isDigit g)). lia. }
      destruct (dropWhile isDigit g) as [| x r]; [exact Hint |].
      destruct (N.eqb_spec x 46) as [-> | Hx].
      * cbn [app]. intros [= <-]. apply Qred_nonneg, decimalValue_nonneg.
      * destruct x as [| px]; [exact Hint |].
        repeat (destruct px as [px | px |]; try exact Hint). contradiction.
  - (* the text starts with a full stop *)
    unfold isDigitOrDot in Hc. rewrite Ed in Hc. cbn [orb] in Hc.
    apply N.eqb_eq in Hc. subst c. cbn [app].
    destruct (takeWhile isDigit g) as [| x fp] eqn:Efp.
    + split; [| discriminate].
      split; [intros _; exists g; split; [reflexivity | exact Efp] | reflexivity].
    + split.
      * split; [discriminate |].
        intros (r & [= <-] & Hr). rewrite Hr in Efp. discriminate.
      * intros q [= <-]. apply Qred_nonneg, decimalValue_nonneg.
Qed.

(** X12.  A temperature field that is present gives [NaN] exactly when its
    capture starts with a full stop that no digit follows; in every other
    case it gives a non-negative number. *)
Theorem temperature_nan_exactly : forall render now decoded s g,
  tempPattern decoded = Some g ->
  (exists p,
     newest (data (handleCharacteristicValueChanged render now decoded s))
       = Some p /\ temperature p = parseFloat g) /\
  (parseFloat g = NaN <->
   exists r, g = 46%N :: r /\ takeWhile isDigit r = []) /\
  (forall q, parseFloat g = Num q -> 0 <= q).
Proof.
  intros render now decoded s g Hg.
  pose proof (capture_run _ _ _ Hg) as Hrun.
  split; [| now apply parseFloat_run].
  rewrite handler_cases, Hg.
  destruct (hrPattern decoded), (spo2Pattern decoded);
    (eexists; split; [apply updateData_displays | reflexivity]).
Qed.

(** X12 at the payload [T:.5]: the capture starts with a full stop that a
    digit follows, and the temperature is one half. *)
Lemma temperature_nan_exactly_witness :
  tempPattern (str "T:.5") = Some (str ".5") /\
  parseFloat (str ".5") = Num (1 # 2) /\
  0 <= 1 # 2.
Proof.
  split; [reflexivity |]. split; [reflexivity |].
  exact (proj2 (proj2 (@temperature_nan_exactly initialState noon (str "T:.5")
                         initialState (str ".5") eq_refl))
               (1 # 2) eq_refl).
Defined.

(** ** White space around a payload *)

Lemma dropWhile_blank_app : forall w s,
  blank w -> dropWhile isWhiteSpace (w ++ s) = dropWhile isWhiteSpace s.
Proof.
  unfold blank. induction w as [| c w IH]; intros s Hw; [reflexivity |].
  cbn [forallb] in Hw. apply andb_prop in Hw. destruct Hw as [Hc Hw].
  cbn [app dropWhile]. rewrite Hc. apply IH, Hw.
Qed.

Lemma regexCapture_padded : forall lit cls w1 s w2,
  solid lit -> lit <> [] ->
  (forall c, cls c = true -> isWhiteSpace c = false) ->
  blank w1 -> blank w2 ->
  regexCapture lit cls (w1 ++ s ++ w2) = regexCapture lit cls s.
Proof.
  intros lit cls w1 s w2 Hlit Hne Hcls H1 H2.
  rewrite <- (regexCapture_leading cls Hlit (w1 ++ s ++ w2) Hne).
  rewrite dropWhile_blank_app by exact H1.
  rewrite (regexCapture_leading cls Hlit (s ++ w2) Hne).
  apply regexCapture_trailing; assumption.
Qed.

(** X13.  White space before and after a payload, such as the line end a
    serial module appends, changes nothing: the handler does to the state
    what it does for the bare payload. *)
Theorem surrounding_blanks_ignored : forall render now w1 decoded w2 s,
  blank w1 -> blank w2 ->
  handleCharacteristicValueChanged render now (w1 ++ decoded ++ w2) s =
  handleCharacteristicValueChanged render now decoded s.
Proof.
  intros render now w1 decoded w2 s H1 H2.
  rewrite !handler_cases. unfold hrPattern, tempPattern, spo2Pattern.
  rewrite !regexCapture_padded;
    first [reflexivity | assumption | discriminate
          | exact isDigit_solid | exact isDigitOrDot_solid].
Qed.

(** X13 at a payload between a space and a carriage return and line
    feed. *)
Lemma surrounding_blanks_ignored_witness :
  blank [32%N] /\ blank [13%N; 10%N] /\
  handleCharacteristicValueChanged initialState noon
    ([32%N] ++ str "H:70" ++ [13%N; 10%N]) initialState =
  handleCharacteristicValueChanged initialState noon (str "H:70") initialState.
Proof.
  split; [reflexivity |]. split; [reflexivity |].
  apply (@surrounding_blanks_ignored initialState noon [32%N] (str "H:70")
           [13%N; 10%N] initialState); reflexivity.
Defined.

(** ** Which payloads are taken *)

(** A pattern matches exactly the texts that hold its tag, a colon and a
    character of its class in a row. *)
Lemma regexCapture_hasField : forall tag cls s,
  (exists g, regexCapture [tag; 58%N] cls s = Some g) <-> hasField tag cls s.
Proof.
  intros tag cls s. split.
  - intros (g & Hg). apply regexCapture_Some in Hg.
    destruct Hg as (i & (rest & Hs & Hne & Hall & _) & _).
    destruct g as [| c g]; [contradiction |].
    cbn [forallb] in Hall. apply andb_prop in Hall. destruct Hall as [Hc _].
    exists (firstn i s), c, (g ++ rest). split; [| exact Hc].
    rewrite <- (firstn_skipn i s) at 1. rewrite Hs. reflexivity.
  - intros (pre & c & post & -> & Hc).
    destruct (regexCapture [tag; 58%N] cls (pre ++ [tag; 58%N; c] ++ post))
      as [g |] eqn:E; [exists g; reflexivity |].
    exfalso. rewrite regexCapture_None in E.
    apply (E (List.length pre) (c :: takeWhile cls post)).
    exists (dropWhile cls post). repeat split.
    + rewrite skipn_app, skipn_all, Nat.sub_diag. cbn [app skipn].
      rewrite takeWhile_dropWhile. reflexivity.
    + discriminate.
    + cbn [forallb]. rewrite Hc, takeWhile_all. reflexivity.
    + apply dropWhile_head.
Qed.

(** X14.  A notification appends a sample exactly when its text holds
    [H:] or [O:] followed by a digit, or [T:] followed by a digit or a
    full stop; every other text leaves the state as it is. *)
Theorem payload_taken_iff : forall render now decoded s,
  let field := hasField 72 isDigit decoded \/
               hasField 84 isDigitOrDot decoded \/
               hasField 79 isDigit decoded in
  (field ->
   exists hr temp spo2,
     handleCharacteristicValueChanged render now decoded s =
       updateData now hr temp spo2 s) /\
  (~ field -> handleCharacteristicValueChanged render now decoded s = s).
Proof.
  intros render now decoded s field. unfold field.
  rewrite <- !regexCapture_hasField. rewrite handler_cases.
  change (regexCapture [72%N; 58%N] isDigit decoded) with (hrPattern decoded).
  change (regexCapture [84%N; 58%N] isDigitOrDot decoded)
    with (tempPattern decoded).
  change (regexCapture [79%N; 58%N] isDigit decoded) with (spo2Pattern decoded).
  destruct (hrPattern decoded) as [h |], (tempPattern decoded) as [t |],
           (spo2Pattern decoded) as [o |];
    (split;
     [ intros H; first [ do 3 eexists; reflexivity
                       | exfalso; destruct H as [[g H] | [[g H] | [g H]]];
                         discriminate H ]
     | intros H; first [ reflexivity
                       | exfalso; apply H;
                         first [ left; eexists; reflexivity
                               | right; left; eexists; reflexivity
                               | right; right; eexists; reflexivity ] ] ]).
Qed.

(** X14 at the text [BPM H:7]: it holds [H:7], and a sample is appended. *)
Lemma payload_taken_iff_witness :
  hasField 72 isDigit (str "BPM H:7") /\
  exists hr temp spo2,
    handleCharacteristicValueChanged initialState noon (str "BPM H:7")
      initialState = updateData noon hr temp spo2 initialState.
Proof.
  assert (H : hasField 72 isDigit (str "BPM H:7")).
  { exists (str "BPM "), 55%N, []. split; reflexivity. }
  split; [exact H |].
  exact (proj1 (payload_taken_iff initialState noon (str "BPM H:7")
                  initialState) (or_introl H)).
Defined.

(** ** The wire format *)

Lemma forallb_weaken : forall (p q : N -> bool) s,
  (forall c, p c = true -> q c = true) ->
  forallb p s = true -> forallb q s = true.
Proof.
  intros p q s Hpq. rewrite !forallb_forall. intros H c Hc. apply Hpq, H, Hc.
Qed.

(** A pattern is not found in a text that lacks its tag letter. *)
Lemma regexCapture_skip : forall a l cls pre s,
  forallb (fun c => negb (c =? a)%N) pre = true ->
  regexCapture (a :: l) cls (pre ++ s) = regexCapture (a :: l) cls s.
Proof.
  intros a l cls pre s. induction pre as [| c pre IH]; intros H; [reflexivity |].
  cbn [forallb] in H. apply andb_prop in H. destruct H as [Hc H].
  cbn [app regexCapture]. unfold matchHere at 1. cbn [stripPrefix].
  rewrite N.eqb_sym. apply negb_true_iff in Hc. rewrite Hc. apply IH, H.
Qed.

(** A field whose tag letter does not occur before it is read whole. *)
Lemma field_read : forall tag cls pre cap rest,
  forallb (fun c => negb (c =? tag)%N) pre = true ->
  cap <> [] -> forallb cls cap = true ->
  match rest with [] => True | c :: _ => cls c = false end ->
  regexCapture [tag; 58%N] cls (pre ++ [tag; 58%N] ++ cap ++ rest) = Some cap.
Proof.
  intros tag cls pre cap rest Hpre Hne Hall Hrest.
  rewrite regexCapture_skip by exact Hpre.
  assert (Hm : matchHere [tag; 58%N] cls ([tag; 58%N] ++ cap ++ rest) = Some cap).
  { apply matchHere_occursAt. exists rest. repeat split; assumption. }
  cbn [app] in Hm |- *. cbn [regexCapture]. rewrite Hm. reflexivity.
Qed.

Lemma isDigit_not_tag : forall c,
  isDigitOrDot c = true ->
  negb (c =? 72)%N = true /\ negb (c =? 84)%N = true /\ negb (c =? 79)%N = true.
Proof.
  intros c H. unfold isDigitOrDot, isDigit in H.
  assert (Hc : (c <= 57)%N).
  { apply orb_prop in H. destruct H as [H | H].
    - apply andb_prop in H. destruct H as [_ H]. now apply N.leb_le in H.
    - apply N.eqb_eq in H. lia. }
  repeat split; apply negb_true_iff, N.eqb_neq; lia.
Qed.

Lemma isNeutral_spec : forall c,
  isNeutral c = true ->
  isDigitOrDot c = false /\ isDigit c = false /\
  negb (c =? 72)%N = true /\ negb (c =? 84)%N = true /\ negb (c =? 79)%N = true.
Proof.
  intros c H. unfold isNeutral in H.
  apply andb_prop in H. destruct H as [H H79].
  apply andb_prop in H. destruct H as [H H84].
  apply andb_prop in H. destruct H as [Hd H72].
  apply negb_true_iff in Hd. repeat split; try assumption.
  unfold isDigitOrDot in Hd. apply orb_false_iff in Hd. apply Hd.
Qed.

(** The character after a field: the end of the text, a neutral character,
    or the tag of the next field. *)
Lemma after_field : forall (cls : N -> bool) sep tag rest,
  neutral sep ->
  (forall c, isNeutral c = true -> cls c = false) ->
  cls tag = false ->
  match sep ++ tag :: rest with [] => True | c :: _ => cls c = false end.
Proof.
  intros cls sep tag rest Hsep Hcls Htag.
  destruct sep as [| c sep]; cbn [app]; [exact Htag |].
  unfold neutral in Hsep. cbn [forallb] in Hsep.
  apply andb_prop in Hsep. destruct Hsep as [Hc _]. apply Hcls, Hc.
Qed.

(** X15.  The wire format [H:<digits> T:<digits and stops> O:<digits>],
    with any neutral text (commas, blanks, letters other than the tags)
    before, between and after the fields, or nothing between them, and
    with up to 15 digits in each of the two integer fields, gives the
    sample of the three values written, whatever the state and whatever
    render the handler belongs to. *)
Theorem wire_format_read : forall render now s0 h s1 t s2 o s3 s,
  neutral s0 -> digitRun h -> (List.length h <= 15)%nat ->
  neutral s1 -> digitOrStopRun t ->
  neutral s2 -> digitRun o -> (List.length o <= 15)%nat -> neutral s3 ->
  handleCharacteristicValueChanged render now
    (s0 ++ str "H:" ++ h ++ s1 ++ str "T:" ++ t ++ s2 ++ str "O:" ++ o ++ s3) s
  = updateData now (int (decimalValue h)) (parseFloat t)
                   (int (decimalValue o)) s /\
  (decimalValue h < 2 ^ 53)%Z /\ (decimalValue o < 2 ^ 53)%Z.
Proof.
  intros render now s0 h s1 t s2 o s3 s
         H0 [Hh Hhd] Lh H1 [Ht Htd] H2 [Ho Hod] Lo H3.
  split; [| split; apply decimalValue_short; assumption].
  assert (N72 : forall x, neutral x -> forallb (fun c => negb (c =? 72)%N) x = true).
  { intros x. apply forallb_weaken. intros c Hc. apply isNeutral_spec, Hc. }
  assert (N84 : forall x, neutral x -> forallb (fun c => negb (c =? 84)%N) x = true).
  { intros x. apply forallb_weaken. intros c Hc. apply isNeutral_spec, Hc. }
  assert (N79 : forall x, neutral x -> forallb (fun c => negb (c =? 79)%N) x = true).
  { intros x. apply forallb_weaken. intros c Hc. apply isNeutral_spec, Hc. }
  assert (Hdd : forall x, forallb isDigit x = true -> forallb isDigitOrDot x = true).
  { intros x. apply forallb_weaken. intros c Hc. unfold isDigitOrDot.
    rewrite Hc. reflexivity. }
  assert (D84 : forall x, forallb isDigitOrDot x = true ->
                          forallb (fun c => negb (c =? 84)%N) x = true).
  { intros x. apply forallb_weaken. intros c Hc. apply isDigit_not_tag, Hc. }
  assert (D79 : forall x, forallb isDigitOrDot x = true ->
                          forallb (fun c => negb (c =? 79)%N) x = true).
  { intros x. apply forallb_weaken. intros c Hc. apply isDigit_not_tag, Hc. }
  assert (Nd : forall c, isNeutral c = true -> isDigit c = false).
  { intros c Hc. apply isNeutral_spec, Hc. }
  assert (Ndd : forall c, isNeutral c = true -> isDigitOrDot c = false).
  { intros c Hc. apply isNeutral_spec, Hc. }
  set (decoded := s0 ++ str "H:" ++ h ++ s1 ++ str "T:" ++ t ++ s2
                     ++ str "O:" ++ o ++ s3).
  assert (Eh : hrPattern decoded = Some h).
  { unfold hrPattern, decoded.
    apply (@field_read 72%N isDigit s0 h
             (s1 ++ str "T:" ++ t ++ s2 ++ str "O:" ++ o ++ s3));
      [apply N72, H0 | exact Hh | exact Hhd |].
    apply after_field; [exact H1 | exact Nd | reflexivity]. }
  assert (Et : tempPattern decoded = Some t).
  { unfold tempPattern, decoded.
    replace (s0 ++ str "H:" ++ h ++ s1 ++ str "T:" ++ t ++ s2 ++ str "O:" ++ o ++ s3)
      with ((s0 ++ str "H:" ++ h ++ s1) ++ str "T:" ++ t ++ s2 ++ str "O:" ++ o ++ s3)
      by (rewrite <- !app_assoc; reflexivity).
    apply (@field_read 84%N isDigitOrDot (s0 ++ str "H:" ++ h ++ s1) t
             (s2 ++ str "O:" ++ o ++ s3)); [| exact Ht | exact Htd |].
    - rewrite !forallb_app, (N84 _ H0), (N84 _ H1), (D84 _ (Hdd _ Hhd)).
      reflexivity.
    - apply after_field; [exact H2 | exact Ndd | reflexivity]. }
  assert (Eo : spo2Pattern decoded = Some o).
  { unfold spo2Pattern, decoded.
    replace (s0 ++ str "H:" ++ h ++ s1 ++ str "T:" ++ t ++ s2 ++ str "O:" ++ o ++ s3)
      with ((s0 ++ str "H:" ++ h ++ s1 ++ str "T:" ++ t ++ s2) ++ str "O:" ++ o ++ s3)
      by (rewrite <- !app_assoc; reflexivity).
    apply (@field_read 79%N isDigit
             (s0 ++ str "H:" ++ h ++ s1 ++ str "T:" ++ t ++ s2) o s3);
      [| exact Ho | exact Hod |].
    - rewrite !forallb_app, (N79 _ H0), (N79 _ H1), (N79 _ H2),
        (D79 _ (Hdd _ Hhd)), (D79 _ Htd). reflexivity.
    - destruct s3 as [| c s3]; [exact I |].
      unfold neutral in H3. cbn [forallb] in H3.
      apply andb_prop in H3. destruct H3 as [Hc _]. apply Nd, Hc. }
  rewrite handler_cases, Eh, Et, Eo.
  rewrite !parseInt_digitRun by (split; assumption). reflexivity.
Qed.

(** X15 at the payload [H:78,T:36.6,O:98] of the page's hint, followed by
    a line feed. *)
Lemma wire_format_read_witness :
  neutral [] /\ digitRun (str "78") /\ (List.length (str "78") <= 15)%nat /\
  neutral (str ",") /\ digitOrStopRun (str "36.6") /\
  digitRun (str "98") /\ (List.length (str "98") <= 15)%nat /\
  neutral [10%N] /\
  handleCharacteristicValueChanged initialState noon
    ([] ++ str "H:" ++ str "78" ++ str "," ++ str "T:" ++ str "36.6"
        ++ str "," ++ str "O:" ++ str "98" ++ [10%N]) initialState
  = updateData noon (int 78) (Num (183 # 5)) (int 98) initialState.
Proof.
  assert (Hn : neutral (str ",")) by reflexivity.
  assert (H78 : digitRun (str "78")) by (split; [discriminate | reflexivity]).
  assert (H98 : digitRun (str "98")) by (split; [discriminate | reflexivity]).
  assert (Ht : digitOrStopRun (str "36.6")) by (split; [discriminate | reflexivity]).
  assert (Hlf : neutral [10%N]) by reflexivity.
  assert (L78 : (List.length (str "78") <= 15)%nat) by (cbn; lia).
  assert (L98 : (List.length (str "98") <= 15)%nat) by (cbn; lia).
  repeat (split; [first [reflexivity | assumption] |]).
  exact (proj1 (@wire_format_read initialState noon [] (str "78") (str ",")
                  (str "36.6") (str ",") (str "98") [10%N] initialState
                  eq_refl H78 L78 Hn Ht Hn H98 L98 Hlf)).
Defined.
